(** * Runtime type guards of job-finder-shared-types

    A shallow embedding of the package's guard predicates (guards.ts, the
    Firestore-oriented type-guard module and the helpers at the end of
    queue.types.ts) over a small model of JavaScript values, followed by the
    properties the specification states about them.

    Guards are written in an exception monad: reading a property of [null]
    or [undefined], calling something that is not a function, or applying
    [in] to a primitive raises, exactly where the JavaScript would. *)

From Stdlib Require Import ZArith String Ascii List Bool Lia.
From Stdlib Require Import Floats.SpecFloat.
Import ListNotations.

Local Open Scope string_scope.
Local Open Scope bool_scope.

Set Warnings "-register-all".

(** ** JavaScript values

    Numbers are IEEE-754 doubles ([spec_float]).  A string is its sequence
    of code units; the model keeps code units below 256, which covers every
    literal and every format the guards look for.  An object is the record
    of the data properties it shows, in insertion order (first binding
    wins on lookup); accessor properties and proxies are outside the
    model.  None of the property names the guards read is defined on
    [Object.prototype], [Array.prototype], [Date.prototype] or
    [Function.prototype], so the members inherited from these are left out
    of the properties.  A [Date] instance carries its time value, [None]
    standing for NaN (an invalid date).  Arrays, [Date] instances and
    functions are objects like any other and may show named data
    properties beside their elements or time value (arrays are dense:
    every index below the length holds an element).  Where such a property
    has the name of a method the guards call ([every], [map], [getTime]),
    it is what the value shows under that name in place of the method it
    would inherit, be it a property of its own or what a changed prototype
    chain provides ([undefined] if it provides nothing); see
    [call_method].  [VDateProto] is an object that inherits from
    [Date.prototype] without being a [Date], such as
    [Object.create(Date.prototype)]: [instanceof Date] holds of it and the
    methods of [Date.prototype] raise on it.  What a function does when
    called is not part of the value. *)

Inductive js_value : Type :=
| VUndefined
| VNull
| VBool (b : bool)
| VNumber (n : spec_float)
| VBigInt (z : Z)
| VString (s : string)
| VSymbol (description : string)
| VFunction (props : list (string * js_value))
| VDate (tv : option Z) (props : list (string * js_value))
| VDateProto (props : list (string * js_value))
| VArray (items : list js_value) (props : list (string * js_value))
| VObject (fields : list (string * js_value)).

Inductive js_type : Type :=
| TUndefined | TObject | TBoolean | TNumber | TBigInt | TString | TSymbol | TFunction.

Definition js_type_eqb (a b : js_type) : bool :=
  match a, b with
  | TUndefined, TUndefined | TObject, TObject | TBoolean, TBoolean
  | TNumber, TNumber | TBigInt, TBigInt | TString, TString
  | TSymbol, TSymbol | TFunction, TFunction => true
  | _, _ => false
  end.

(** The [typeof] operator. *)
Definition typeof (v : js_value) : js_type :=
  match v with
  | VUndefined => TUndefined
  | VNull => TObject
  | VBool _ => TBoolean
  | VNumber _ => TNumber
  | VBigInt _ => TBigInt
  | VString _ => TString
  | VSymbol _ => TSymbol
  | VFunction _ => TFunction
  | VDate _ _ | VDateProto _ | VArray _ _ | VObject _ => TObject
  end.

(** ToBoolean, as applied by [!], [&&] and [if]. *)
Definition truthy (v : js_value) : bool :=
  match v with
  | VUndefined | VNull => false
  | VBool b => b
  | VNumber (S754_zero _) | VNumber S754_nan => false
  | VNumber _ => true
  | VBigInt z => negb (Z.eqb z 0)
  | VString s => negb (String.eqb s "")
  | VSymbol _ | VFunction _ | VDate _ _ | VDateProto _ | VArray _ _ | VObject _ => true
  end.

(** Primitive literals a guard compares against with [===]. *)
Inductive literal : Type :=
| LUndefined
| LNull
| LBool (b : bool)
| LString (s : string).

Definition strict_eq (v : js_value) (l : literal) : bool :=
  match v, l with
  | VUndefined, LUndefined => true
  | VNull, LNull => true
  | VBool a, LBool b => Bool.eqb a b
  | VString a, LString b => String.eqb a b
  | _, _ => false
  end.

(** ** Exceptions *)

(** [Foreign] is not an exception of the language.  It marks the point
    where a guard calls a function it has found in its input: the guard's
    code no longer decides what happens next (the function may return
    anything or throw anything). *)
Inductive exn : Type := TypeError | RangeError | Foreign.

Inductive result (A : Type) : Type :=
| Ok (a : A)
| Throw (e : exn).
Arguments Ok {A} a.
Arguments Throw {A} e.

Definition ret {A : Type} (a : A) : result A := Ok a.

Definition bind {A B : Type} (m : result A) (k : A -> result B) : result B :=
  match m with
  | Ok a => k a
  | Throw e => Throw e
  end.

Notation "x <- m ;; k" := (bind m (fun x => k))
  (at level 61, m at next level, right associativity).
Notation "m >>= f" := (bind m f) (at level 42, left associativity).

(** [a && b] and [a || b] on boolean operands: the right operand is not
    evaluated, so cannot raise, when the left one decides. *)
Definition js_and (a b : result bool) : result bool :=
  x <- a ;; if x then b else ret false.

Definition js_or (a b : result bool) : result bool :=
  x <- a ;; if x then ret true else b.

Infix "&&&" := js_and (at level 40, left associativity).
Infix "|||" := js_or (at level 50, left associativity).

(** [try { body } catch { return fallback }]. *)
Definition try_catch {A : Type} (body : result A) (fallback : A) : result A :=
  match body with
  | Ok a => Ok a
  | Throw Foreign => Throw Foreign
  | Throw _ => Ok fallback
  end.

(** A computation that completes normally. *)
Definition returns {A : Type} (m : result A) : Prop := exists a, m = Ok a.

(** ** Properties *)

Fixpoint lookup (k : string) (fs : list (string * js_value)) : option js_value :=
  match fs with
  | [] => None
  | (k', v) :: rest => if String.eqb k k' then Some v else lookup k rest
  end.

Definition or_undefined (o : option js_value) : js_value :=
  match o with
  | Some v => v
  | None => VUndefined
  end.

Definition number_of_nat (n : nat) : spec_float :=
  match N.of_nat n with
  | N0 => S754_zero false
  | Npos p => S754_finite false p 0
  end.

Definition digit_of_ascii (c : ascii) : option nat :=
  let n := nat_of_ascii c in
  if (48 <=? n)%nat && (n <=? 57)%nat then Some (n - 48)%nat else None.

Fixpoint digits_value (s : string) (acc : nat) : option nat :=
  match s with
  | EmptyString => Some acc
  | String c rest =>
      match digit_of_ascii c with
      | Some d => digits_value rest (10 * acc + d)%nat
      | None => None
      end
  end.

(** A canonical array index: decimal digits without a leading zero. *)
Definition index_of_key (k : string) : option nat :=
  match k with
  | EmptyString => None
  | String "0" EmptyString => Some 0%nat
  | String "0" _ => None
  | _ => digits_value k 0
  end.

Definition array_get (items : list js_value) (k : string) : option js_value :=
  if String.eqb k "length" then Some (VNumber (number_of_nat (List.length items)))
  else match index_of_key k with
       | Some i => nth_error items i
       | None => None
       end.

Definition string_get (s : string) (k : string) : option js_value :=
  if String.eqb k "length" then Some (VNumber (number_of_nat (String.length s)))
  else match index_of_key k with
       | Some i => match String.get i s with
                   | Some c => Some (VString (String c EmptyString))
                   | None => None
                   end
       | None => None
       end.

(** The property [k] of an array: its length, an element, or a named
    property of its own. *)
Definition array_property (items : list js_value) (props : list (string * js_value))
  (k : string) : option js_value :=
  match array_get items k with
  | Some x => Some x
  | None => lookup k props
  end.

(** [v.k] (equivalently [v[k]]). *)
Definition get (v : js_value) (k : string) : result js_value :=
  match v with
  | VUndefined | VNull => Throw TypeError
  | VObject fs => Ok (or_undefined (lookup k fs))
  | VArray items props => Ok (or_undefined (array_property items props k))
  | VDate _ props | VDateProto props | VFunction props =>
      Ok (or_undefined (lookup k props))
  | VString s => Ok (or_undefined (string_get s k))
  | VBool _ | VNumber _ | VBigInt _ | VSymbol _ => Ok VUndefined
  end.

Notation "v .[ k ]" := (get v k) (at level 1, format "v .[ k ]").

Definition is_some {A : Type} (o : option A) : bool :=
  match o with
  | Some _ => true
  | None => false
  end.

(** [k in v]. *)
Definition has_property (k : string) (v : js_value) : result bool :=
  match v with
  | VObject fs => Ok (is_some (lookup k fs))
  | VArray items props => Ok (is_some (array_property items props k))
  | VDate _ props | VDateProto props | VFunction props =>
      Ok (is_some (lookup k props))
  | VUndefined | VNull | VBool _ | VNumber _ | VBigInt _ | VString _ | VSymbol _ =>
      Throw TypeError
  end.

(** [typeof e === "t"] for an expression [e] that may raise. *)
Definition typeof_is (e : result js_value) (t : js_type) : result bool :=
  v <- e ;; ret (js_type_eqb (typeof v) t).

(** [e === l] for an expression [e] that may raise. *)
Definition equals (e : result js_value) (l : literal) : result bool :=
  v <- e ;; ret (strict_eq v l).

Definition isArray (v : js_value) : bool :=
  match v with
  | VArray _ _ => true
  | _ => false
  end.

(** [v instanceof Date]: [Date.prototype] is on the prototype chain. *)
Definition instanceof_Date (v : js_value) : bool :=
  match v with
  | VDate _ _ | VDateProto _ => true
  | _ => false
  end.

Fixpoint every (cb : js_value -> result bool) (items : list js_value) : result bool :=
  match items with
  | [] => ret true
  | x :: rest => b <- cb x ;; if b then every cb rest else ret false
  end.

(** Calling [f], a value found under the name of a method: a TypeError
    unless [f] is a function, and then code the value does not hold. *)
Definition call_found {A : Type} (f : js_value) : result A :=
  if js_type_eqb (typeof f) TFunction then Throw Foreign else Throw TypeError.

(** [v.m(...)] where [builtin] is what the method [m] that [v] inherits
    does on [v], and [props] are the named properties of [v]: a property
    called [m] shadows the inherited method. *)
Definition call_method {A : Type} (props : list (string * js_value)) (m : string)
  (builtin : result A) : result A :=
  match lookup m props with
  | None => builtin
  | Some f => call_found f
  end.

(** [v.every(cb)]: arrays inherit the method from [Array.prototype]. *)
Definition call_every (v : js_value) (cb : js_value -> result bool) : result bool :=
  match v with
  | VArray items props => call_method props "every" (every cb items)
  | _ => f <- v.["every"] ;; call_found f
  end.

(** [[l1, ..., ln].includes(v)] for string literals [li] (SameValueZero). *)
Definition includes (lits : list string) (v : js_value) : bool :=
  existsb (fun l => strict_eq v (LString l)) lits.

(** ** Strings and regular expressions *)

(** White space and line terminators ([\s], and what [trim] strips)
    among the code units below 256: TAB, LF, VT, FF, CR, SP, NBSP. *)
Definition is_space (c : ascii) : bool :=
  let n := nat_of_ascii c in
  ((9 <=? n)%nat && (n <=? 13)%nat) || Nat.eqb n 32 || Nat.eqb n 160.

(** Line terminators ([.] matches anything else): LF and CR. *)
Definition is_line_terminator (c : ascii) : bool :=
  let n := nat_of_ascii c in
  Nat.eqb n 10 || Nat.eqb n 13.

Fixpoint trim_start (s : string) : string :=
  match s with
  | EmptyString => EmptyString
  | String c rest => if is_space c then trim_start rest else s
  end.

Fixpoint trim_end (s : string) : string :=
  match s with
  | EmptyString => EmptyString
  | String c rest =>
      match trim_end rest with
      | EmptyString => if is_space c then EmptyString else String c EmptyString
      | rest' => String c rest'
      end
  end.

(** [s.trim()]. *)
Definition trim (s : string) : string := trim_end (trim_start s).

Module Regex.

(** Regular expressions over code units, matched with Brzozowski
    derivatives.  The two patterns of guards.ts use no capture, no
    flag and no back-reference, so language membership is all that
    [RegExp.prototype.test] decides. *)
Inductive t : Type :=
| Void
| Eps
| Class (p : ascii -> bool)
| Cat (r1 r2 : t)
| Alt (r1 r2 : t)
| Star (r : t).

Fixpoint nullable (r : t) : bool :=
  match r with
  | Void => false
  | Eps => true
  | Class _ => false
  | Cat r1 r2 => nullable r1 && nullable r2
  | Alt r1 r2 => nullable r1 || nullable r2
  | Star _ => true
  end.

Fixpoint deriv (c : ascii) (r : t) : t :=
  match r with
  | Void => Void
  | Eps => Void
  | Class p => if p c then Eps else Void
  | Cat r1 r2 =>
      if nullable r1 then Alt (Cat (deriv c r1) r2) (deriv c r2)
      else Cat (deriv c r1) r2
  | Alt r1 r2 => Alt (deriv c r1) (deriv c r2)
  | Star r1 => Cat (deriv c r1) (Star r1)
  end.

(** The whole of [s] is in the language of [r]. *)
Fixpoint matches (r : t) (s : string) : bool :=
  match s with
  | EmptyString => nullable r
  | String c rest => matches (deriv c r) rest
  end.

Definition Char (c : ascii) : t := Class (Ascii.eqb c).
Definition Plus (r : t) : t := Cat r (Star r).
Definition Opt (r : t) : t := Alt Eps r.
Definition Any : t := Class (fun _ => true).

Fixpoint Lit (s : string) : t :=
  match s with
  | EmptyString => Eps
  | String c rest => Cat (Char c) (Lit rest)
  end.

(** [/^r/.test(s)]: some prefix of [s] is in the language of [r]. *)
Definition test_prefix (r : t) (s : string) : bool := matches (Cat r (Star Any)) s.

(** [/^r$/.test(s)]. *)
Definition test_whole (r : t) (s : string) : bool := matches r s.

End Regex.

(** ** Dates

    The time arithmetic of ECMA-262 (section "Date Objects") over integer
    milliseconds since the epoch. *)
Module EcmaDate.

Local Open Scope Z_scope.

Definition msPerDay : Z := 86400000.
Definition msPerHour : Z := 3600000.
Definition msPerMinute : Z := 60000.
Definition msPerSecond : Z := 1000.

Definition Day (t : Z) : Z := t / msPerDay.
Definition TimeWithinDay (t : Z) : Z := t mod msPerDay.

Definition is_leap (y : Z) : bool :=
  if negb (y mod 4 =? 0) then false
  else if negb (y mod 100 =? 0) then true
  else (y mod 400 =? 0).

Definition DaysInYear (y : Z) : Z := if is_leap y then 366 else 365.

Definition DayFromYear (y : Z) : Z :=
  365 * (y - 1970) + (y - 1969) / 4 - (y - 1901) / 100 + (y - 1601) / 400.

(** The largest [y] with [DayFromYear y <= Day t]: an estimate from the
    mean year length, corrected by at most one. *)
Definition YearFromDay (d : Z) : Z :=
  let y := 1970 + (400 * d) / 146097 in
  if d <? DayFromYear y then y - 1
  else if DayFromYear (y + 1) <=? d then y + 1
  else y.

Definition YearFromTime (t : Z) : Z := YearFromDay (Day t).

Definition DayWithinYear (t : Z) : Z := Day t - DayFromYear (YearFromTime t).

(** Days before month [m] (0-based) in a year that is leap or not. *)
Definition days_before_month (leap : bool) (m : Z) : Z :=
  let l := if leap then 1 else 0 in
  match m with
  | 0 => 0
  | 1 => 31
  | 2 => 59 + l
  | 3 => 90 + l
  | 4 => 120 + l
  | 5 => 151 + l
  | 6 => 181 + l
  | 7 => 212 + l
  | 8 => 243 + l
  | 9 => 273 + l
  | 10 => 304 + l
  | 11 => 334 + l
  | _ => 365 + l
  end.

Definition days_in_month (leap : bool) (m : Z) : Z :=
  days_before_month leap (m + 1) - days_before_month leap m.

Fixpoint month_search (leap : bool) (dwy : Z) (m : Z) (fuel : nat) : Z :=
  match fuel with
  | O => m
  | S fuel' =>
      if dwy <? days_before_month leap (m + 1) then m
      else month_search leap dwy (m + 1) fuel'
  end.

Definition MonthFromTime (t : Z) : Z :=
  month_search (is_leap (YearFromTime t)) (DayWithinYear t) 0 11.

Definition DateFromTime (t : Z) : Z :=
  DayWithinYear t - days_before_month (is_leap (YearFromTime t)) (MonthFromTime t) + 1.

Definition HourFromTime (t : Z) : Z := (t / msPerHour) mod 24.
Definition MinFromTime (t : Z) : Z := (t / msPerMinute) mod 60.
Definition SecFromTime (t : Z) : Z := (t / msPerSecond) mod 60.
Definition msFromTime (t : Z) : Z := t mod msPerSecond.

Definition MakeTime (hour min sec ms : Z) : Z :=
  hour * msPerHour + min * msPerMinute + sec * msPerSecond + ms.

(** [month] is 0-based and within 0..11 wherever this is used. *)
Definition MakeDay (year month date : Z) : Z :=
  DayFromYear year + days_before_month (is_leap year) month + date - 1.

Definition MakeDate (day time : Z) : Z := day * msPerDay + time.

Definition TimeClip (t : option Z) : option Z :=
  match t with
  | Some z => if 8640000000000000 <? Z.abs z then None else Some z
  | None => None
  end.

(** *** Serialization: [Date.prototype.toISOString] *)

Definition digit_char (d : Z) : ascii := ascii_of_nat (48 + Z.to_nat d).

(** [n] in decimal, zero-padded or truncated to [width] digits. *)
Fixpoint pad (width : nat) (n : Z) (acc : string) : string :=
  match width with
  | O => acc
  | S w => pad w (n / 10) (String (digit_char (n mod 10)) acc)
  end.

Definition year_string (y : Z) : string :=
  if (0 <=? y) && (y <=? 9999) then pad 4 y ""
  else if y <? 0 then "-" ++ pad 6 (- y) ""
  else "+" ++ pad 6 y "".

Definition iso_string (t : Z) : string :=
  year_string (YearFromTime t) ++ "-" ++ pad 2 (MonthFromTime t + 1) "" ++ "-"
    ++ pad 2 (DateFromTime t) "" ++ "T" ++ pad 2 (HourFromTime t) "" ++ ":"
    ++ pad 2 (MinFromTime t) "" ++ ":" ++ pad 2 (SecFromTime t) "" ++ "."
    ++ pad 3 (msFromTime t) "" ++ "Z".

(** *** Parsing: the Date Time String Format *)

Definition digit_value (c : ascii) : option Z :=
  let n := Z.of_nat (nat_of_ascii c) in
  if (48 <=? n) && (n <=? 57) then Some (n - 48) else None.

(** Exactly [k] decimal digits at the head of [s]. *)
Fixpoint take_digits (k : nat) (acc : Z) (s : string) : option (Z * string) :=
  match k with
  | O => Some (acc, s)
  | S k' =>
      match s with
      | EmptyString => None
      | String c rest =>
          match digit_value c with
          | Some d => take_digits k' (10 * acc + d) rest
          | None => None
          end
      end
  end.

(** [YYYY], or a sign and [YYYYYY]; minus zero is not a year. *)
Definition parse_year (s : string) : option (Z * string) :=
  match s with
  | String "+" rest => take_digits 6 0 rest
  | String "-" rest =>
      match take_digits 6 0 rest with
      | Some (0, _) => None
      | Some (y, rest') => Some (- y, rest')
      | None => None
      end
  | _ => take_digits 4 0 s
  end.

(** An optional [sep] followed by [k] digits; [default] when [sep] is
    not next. *)
Definition parse_opt_field (sep : ascii) (k : nat) (default : Z) (s : string)
  : option (Z * bool * string) :=
  match s with
  | String c rest =>
      if Ascii.eqb c sep then
        match take_digits k 0 rest with
        | Some (n, rest') => Some (n, true, rest')
        | None => None
        end
      else Some (default, false, s)
  | EmptyString => Some (default, false, s)
  end.

(** [THH:mm], [THH:mm:ss] or [THH:mm:ss.sss], then [Z] and the end of
    the string; the time within the day in milliseconds. *)
Definition parse_utc_time (s : string) : option Z :=
  match s with
  | String "T" s1 =>
      match take_digits 2 0 s1 with
      | Some (h, String ":" s2) =>
          match take_digits 2 0 s2 with
          | Some (mi, s3) =>
              match parse_opt_field ":" 2 0 s3 with
              | Some (sec, has_sec, s4) =>
                  match (if has_sec then parse_opt_field "." 3 0 s4
                         else Some (0, false, s4)) with
                  | Some (ms, _, String "Z" EmptyString) =>
                      if (h <=? 23) && (mi <=? 59) && (sec <=? 59)
                      then Some (MakeTime h mi sec ms) else None
                  | _ => None
                  end
              | None => None
              end
          | None => None
          end
      | _ => None
      end
  | _ => None
  end.

(** The part of the Date Time String Format whose meaning does not
    depend on the host: a date-only form, or a date-time form with the
    [Z] designator, all fields in range and the day within its month.
    Everything else (local-time and numeric-offset forms, [24:00],
    days past the end of the month, legacy formats) is left to the
    host's parser. *)
Definition parse_iso_utc (s : string) : option Z :=
  match parse_year s with
  | Some (y, s1) =>
      match parse_opt_field "-" 2 1 s1 with
      | Some (m, has_month, s2) =>
          match (if has_month then parse_opt_field "-" 2 1 s2
                 else Some (1, false, s2)) with
          | Some (d, _, s3) =>
              if (1 <=? m) && (m <=? 12) && (1 <=? d)
                 && (d <=? days_in_month (is_leap y) (m - 1))
              then
                match s3 with
                | EmptyString => Some (MakeDate (MakeDay y (m - 1) d) 0)
                | _ =>
                    match parse_utc_time s3 with
                    | Some time => Some (MakeDate (MakeDay y (m - 1) d) time)
                    | None => None
                    end
                end
              else None
          | None => None
          end
      | None => None
      end
  | None => None
  end.

Section Host.

(** What the host's [Date.parse] makes of a string outside the
    host-independent part of the format ([None] for NaN). *)
Variable hostParse : string -> option Z.

Definition parse (s : string) : option Z :=
  match parse_iso_utc s with
  | Some t => Some t
  | None => hostParse s
  end.

(** The time value of [new Date(s)] for a string [s]. *)
Definition time_value_of_string (s : string) : option Z := TimeClip (parse s).

End Host.

End EcmaDate.

(** [new Date(s)] for a string [s]. *)
Definition new_Date (hostParse : string -> option Z) (s : string) : js_value :=
  VDate (EcmaDate.time_value_of_string hostParse s) [].

(** [v.getTime()]: the time value, [None] for NaN.  The method of
    [Date.prototype] raises on a receiver that is not a [Date]. *)
Definition getTime (v : js_value) : result (option Z) :=
  match v with
  | VDate tv props => call_method props "getTime" (Ok tv)
  | VDateProto props => call_method props "getTime" (Throw TypeError)
  | _ => f <- v.["getTime"] ;; call_found f
  end.

(** [isNaN(x)] on a time value. *)
Definition isNaN (tv : option Z) : bool := negb (is_some tv).

(** [v.toISOString()]: raises RangeError on an invalid date. *)
Definition toISOString (v : js_value) : result string :=
  match v with
  | VDate tv props =>
      call_method props "toISOString"
        match tv with
        | Some t => Ok (EcmaDate.iso_string t)
        | None => Throw RangeError
        end
  | VDateProto props => call_method props "toISOString" (Throw TypeError)
  | _ => f <- v.["toISOString"] ;; call_found f
  end.

(** [v.trim()]: strings have the method of [String.prototype]. *)
Definition call_trim (v : js_value) : result string :=
  match v with
  | VString s => Ok (trim s)
  | _ => f <- v.["trim"] ;; call_found f
  end.

(** ** Object literals *)

(** Defining a property: an existing key keeps its place and takes the
    new value, a new key goes last. *)
Fixpoint obj_set (k : string) (v : js_value) (fs : list (string * js_value))
  : list (string * js_value) :=
  match fs with
  | [] => [(k, v)]
  | (k', v') :: rest =>
      if String.eqb k k' then (k, v) :: rest else (k', v') :: obj_set k v rest
  end.

(** [{ k1: v1, ..., kn: vn }], properties defined left to right. *)
Definition object_of (entries : list (string * js_value)) : js_value :=
  VObject (fold_left (fun fs kv => obj_set (fst kv) (snd kv) fs) entries []).

(** [a && b] on values that cannot raise. *)
Definition and_value (a b : js_value) : js_value := if truthy a then b else a.

(** The own enumerable properties copied by [...v] inside an object
    literal.  The constructors below spread an object, [undefined] or the
    empty string only. *)
Definition spread (v : js_value) : list (string * js_value) :=
  match v with
  | VObject fs => fs
  | _ => []
  end.

Definition of_optional_string (o : option string) : js_value :=
  match o with
  | Some s => VString s
  | None => VUndefined
  end.

Definition of_optional_record (o : option (list (string * js_value))) : js_value :=
  match o with
  | Some fs => VObject fs
  | None => VUndefined
  end.

(** ** guards.ts *)

Definition isApiSuccess (response : js_value) : result bool :=
  equals response.["success"] (LBool true).

Definition isApiError (response : js_value) : result bool :=
  equals response.["success"] (LBool false).

Definition isApiResponse (value : js_value) : result bool :=
  if negb (truthy value) || negb (js_type_eqb (typeof value) TObject) then ret false
  else
    let obj := value in
    (* Check for success discriminator *)
    is_boolean <- typeof_is obj.["success"] TBoolean ;;
    if negb is_boolean then ret false
    else
      (* Validate success response structure *)
      is_true <- equals obj.["success"] (LBool true) ;;
      if is_true then has_property "data" obj
      else
        (* Validate error response structure *)
        is_false <- equals obj.["success"] (LBool false) ;;
        if is_false then
          no_error <- (e <- obj.["error"] ;; ret (negb (truthy e)))
                      ||| (b <- typeof_is obj.["error"] TObject ;; ret (negb b)) ;;
          if no_error then ret false
          else
            error <- obj.["error"] ;;
            typeof_is error.["code"] TString &&& typeof_is error.["message"] TString
        else ret false.

Definition hasErrorCode (response : js_value) (code : string) : result bool :=
  error <- response.["error"] ;;
  equals error.["code"] (LString code).

Definition isDate (value : js_value) : result bool :=
  ret (instanceof_Date value) &&& (t <- getTime value ;; ret (negb (isNaN t))).

Definition isISODateString (hostParse : string -> option Z) (value : js_value)
  : result bool :=
  match value with
  | VString s =>
      let date := new_Date hostParse s in
      (t <- getTime date ;; ret (negb (isNaN t)))
      &&& (iso <- toISOString date ;; ret (String.eqb iso s))
  | _ => ret false
  end.

Definition isNonEmptyString (value : js_value) : result bool :=
  ret (js_type_eqb (typeof value) TString)
  &&& (s <- call_trim value ;; ret (0 <? String.length s)%nat).

Definition isNonEmptyArray (value : js_value) : result bool :=
  match value with
  | VArray items _ => ret (0 <? List.length items)%nat
  | _ => ret false
  end.

(** [/^https?:\/\/.+/] *)
Definition urlPattern : Regex.t :=
  Regex.Cat (Regex.Lit "http")
    (Regex.Cat (Regex.Opt (Regex.Char "s"))
       (Regex.Cat (Regex.Lit "://")
          (Regex.Plus (Regex.Class (fun c => negb (is_line_terminator c)))))).

Definition isValidUrl (value : js_value) : result bool :=
  match value with
  | VString s => try_catch (ret (Regex.test_prefix urlPattern s)) false
  | _ => ret false
  end.

(** [/^[^\s@]+@[^\s@]+\.[^\s@]+$/] *)
Definition emailRegex : Regex.t :=
  let word := Regex.Plus (Regex.Class (fun c => negb (is_space c || Ascii.eqb c "@"))) in
  Regex.Cat word (Regex.Cat (Regex.Char "@") (Regex.Cat word (Regex.Cat (Regex.Char ".") word))).

Definition isValidEmail (value : js_value) : result bool :=
  match value with
  | VString s => ret (Regex.test_whole emailRegex s)
  | _ => ret false
  end.

Definition createSuccessResponse (data : js_value) (message : option string) : js_value :=
  let message := of_optional_string message in
  object_of ([("success", VBool true); ("data", data)]
             ++ spread (and_value message (object_of [("message", message)]))).

Definition createErrorResponse (code message : string)
  (details : option (list (string * js_value))) : js_value :=
  let details := of_optional_record details in
  object_of
    [("success", VBool false);
     ("error",
       object_of ([("code", VString code); ("message", VString message)]
                  ++ spread (and_value details (object_of [("details", details)]))))].

(** ** queue.types.ts

    The declarations and helpers of the revision the type-guard module
    below was written against come first. *)

Inductive QueueStatus : Type := pending | processing | success | failed | skipped.

Inductive QueueItemType : Type := job | company.

Inductive QueueSource : Type := user_submission | automated_scan | scraper | webhook | email.

Definition QueueStatus_literal (q : QueueStatus) : string :=
  match q with
  | pending => "pending"
  | processing => "processing"
  | success => "success"
  | failed => "failed"
  | skipped => "skipped"
  end.

Definition QueueItemType_literal (t : QueueItemType) : string :=
  match t with
  | job => "job"
  | company => "company"
  end.

Definition QueueSource_literal (q : QueueSource) : string :=
  match q with
  | user_submission => "user_submission"
  | automated_scan => "automated_scan"
  | scraper => "scraper"
  | webhook => "webhook"
  | email => "email"
  end.

(** Membership of a string in the declared [QueueSource] union. *)
Definition in_QueueSource (s : string) : bool :=
  existsb (fun q => String.eqb s (QueueSource_literal q))
    [user_submission; automated_scan; scraper; webhook; email].

Definition isQueueStatus (status : js_value) : result bool :=
  ret (includes ["pending"; "processing"; "success"; "failed"; "skipped"] status).

Definition isQueueItemType (type : js_value) : result bool :=
  ret (includes ["job"; "company"] type).

(** The file as it now stands (the revision kept with the repository's
    documentation), which adds the [filtered] status and the [scrape] item
    type to the declarations above and to the two helpers. *)
Module QueueTypesRevised.

Inductive QueueStatus : Type :=
  pending | processing | success | failed | skipped | filtered.

Inductive QueueItemType : Type := job | company | scrape.

Definition QueueStatus_literal (q : QueueStatus) : string :=
  match q with
  | pending => "pending"
  | processing => "processing"
  | success => "success"
  | failed => "failed"
  | skipped => "skipped"
  | filtered => "filtered"
  end.

Definition QueueItemType_literal (t : QueueItemType) : string :=
  match t with
  | job => "job"
  | company => "company"
  | scrape => "scrape"
  end.

Definition isQueueStatus (status : js_value) : result bool :=
  ret (includes ["pending"; "processing"; "success"; "failed"; "skipped"; "filtered"]
         status).

Definition isQueueItemType (type : js_value) : result bool :=
  ret (includes ["job"; "company"; "scrape"] type).

End QueueTypesRevised.

(** ** Type guard functions (Firestore documents and API inputs) *)

Definition queueStatusGuard := isQueueStatus.
Definition queueItemTypeGuard := isQueueItemType.

Definition isObject (value : js_value) : result bool :=
  ret (js_type_eqb (typeof value) TObject)
  &&& ret (negb (strict_eq value LNull))
  &&& ret (negb (isArray value)).

Definition isStringArray (value : js_value) : result bool :=
  ret (isArray value)
  &&& call_every value (fun item => ret (js_type_eqb (typeof item) TString)).

Definition isDateLike (value : js_value) : result bool :=
  if instanceof_Date value then ret true
  else
    o <- isObject value ;;
    if negb o then ret false
    else
      (* Check for Firestore Timestamp structure *)
      typeof_is value.["seconds"] TNumber
      &&& typeof_is value.["nanoseconds"] TNumber
      &&& typeof_is value.["toDate"] TFunction.

Definition isQueueSource (value : js_value) : result bool :=
  ret (js_type_eqb (typeof value) TString)
  &&& ret (includes
             ["user_submission"; "automated_scan"; "scraper"; "webhook"; "email";
              "manual_submission"; "user_request"] value).

Definition isQueueItem (value : js_value) : result bool :=
  o <- isObject value ;;
  if negb o then ret false
  else
    let item := value in
    (* Check required fields *)
    (item.["type"] >>= queueItemTypeGuard)
    &&& (item.["status"] >>= queueStatusGuard)
    &&& typeof_is item.["url"] TString
    &&& typeof_is item.["company_name"] TString
    &&& (equals item.["company_id"] LNull ||| typeof_is item.["company_id"] TString)
    &&& (item.["source"] >>= isQueueSource)
    &&& (equals item.["submitted_by"] LNull ||| typeof_is item.["submitted_by"] TString)
    &&& typeof_is item.["retry_count"] TNumber
    &&& typeof_is item.["max_retries"] TNumber
    &&& (item.["created_at"] >>= isDateLike)
    &&& (item.["updated_at"] >>= isDateLike).

Definition isStopList (value : js_value) : result bool :=
  o <- isObject value ;;
  if negb o then ret false
  else
    let stopList := value in
    (stopList.["excludedCompanies"] >>= isStringArray)
    &&& (stopList.["excludedKeywords"] >>= isStringArray)
    &&& (stopList.["excludedDomains"] >>= isStringArray).

Definition isQueueSettings (value : js_value) : result bool :=
  o <- isObject value ;;
  if negb o then ret false
  else
    let settings := value in
    typeof_is settings.["maxRetries"] TNumber
    &&& typeof_is settings.["retryDelaySeconds"] TNumber
    &&& typeof_is settings.["processingTimeout"] TNumber.

Definition isAIProvider (value : js_value) : result bool :=
  ret (js_type_eqb (typeof value) TString)
  &&& ret (includes ["claude"; "openai"; "gemini"] value).

Definition isAISettings (value : js_value) : result bool :=
  o <- isObject value ;;
  if negb o then ret false
  else
    let settings := value in
    (settings.["provider"] >>= isAIProvider)
    &&& typeof_is settings.["model"] TString
    &&& typeof_is settings.["minMatchScore"] TNumber
    &&& typeof_is settings.["costBudgetDaily"] TNumber.

Definition isExperienceHighlight (value : js_value) : result bool :=
  o <- isObject value ;;
  if negb o then ret false
  else
    let exp := value in
    typeof_is exp.["company"] TString
    &&& typeof_is exp.["title"] TString
    &&& (exp.["pointsToEmphasize"] >>= isStringArray).

Definition isProjectRecommendation (value : js_value) : result bool :=
  o <- isObject value ;;
  if negb o then ret false
  else
    let proj := value in
    typeof_is proj.["name"] TString
    &&& typeof_is proj.["whyRelevant"] TString
    &&& (proj.["pointsToHighlight"] >>= isStringArray).

Definition isGapMitigation (value : js_value) : result bool :=
  o <- isObject value ;;
  if negb o then ret false
  else
    let gap := value in
    typeof_is gap.["missingSkill"] TString
    &&& typeof_is gap.["mitigationStrategy"] TString
    &&& typeof_is gap.["coverLetterPoint"] TString.

Definition isResumeIntakeData (value : js_value) : result bool :=
  o <- isObject value ;;
  if negb o then ret false
  else
    let data := value in
    typeof_is data.["jobId"] TString
    &&& typeof_is data.["jobTitle"] TString
    &&& typeof_is data.["company"] TString
    &&& typeof_is data.["targetSummary"] TString
    &&& (data.["skillsPriority"] >>= isStringArray)
    &&& (v <- data.["experienceHighlights"] ;; ret (isArray v))
    &&& (v <- data.["experienceHighlights"] ;; call_every v isExperienceHighlight)
    &&& (v <- data.["projectsToInclude"] ;; ret (isArray v))
    &&& (v <- data.["projectsToInclude"] ;; call_every v isProjectRecommendation)
    &&& (data.["achievementAngles"] >>= isStringArray)
    &&& (data.["atsKeywords"] >>= isStringArray).

Definition isJobListing (value : js_value) : result bool :=
  o <- isObject value ;;
  if negb o then ret false
  else
    let job := value in
    (* Check required fields *)
    typeof_is job.["title"] TString
    &&& typeof_is job.["company"] TString
    &&& typeof_is job.["companyWebsite"] TString
    &&& typeof_is job.["location"] TString
    &&& typeof_is job.["description"] TString
    &&& typeof_is job.["url"] TString.

Definition isJobMatch (value : js_value) : result bool :=
  o <- isObject value ;;
  if negb o then ret false
  else
    let match_ := value in
    (* Check required fields *)
    typeof_is match_.["url"] TString
    &&& typeof_is match_.["companyName"] TString
    &&& typeof_is match_.["jobTitle"] TString
    &&& typeof_is match_.["jobDescription"] TString
    &&& typeof_is match_.["matchScore"] TNumber
    &&& (match_.["matchedSkills"] >>= isStringArray)
    &&& (match_.["missingSkills"] >>= isStringArray)
    &&& (match_.["matchReasons"] >>= isStringArray)
    &&& (match_.["keyStrengths"] >>= isStringArray)
    &&& (match_.["potentialConcerns"] >>= isStringArray)
    &&& typeof_is match_.["experienceMatch"] TNumber
    &&& (equals match_.["applicationPriority"] (LString "High")
         ||| equals match_.["applicationPriority"] (LString "Medium")
         ||| equals match_.["applicationPriority"] (LString "Low"))
    &&& (match_.["customizationRecommendations"] >>= isStringArray)
    &&& (match_.["analyzedAt"] >>= isDateLike)
    &&& (match_.["createdAt"] >>= isDateLike)
    &&& (equals match_.["submittedBy"] LNull ||| typeof_is match_.["submittedBy"] TString)
    &&& typeof_is match_.["queueItemId"] TString.

Definition isCompany (value : js_value) : result bool :=
  o <- isObject value ;;
  if negb o then ret false
  else
    let company := value in
    (* Check required fields *)
    typeof_is company.["name"] TString &&& typeof_is company.["website"] TString.

Definition isContentItemType (value : js_value) : result bool :=
  ret (js_type_eqb (typeof value) TString)
  &&& ret (includes
             ["company"; "project"; "skill-group"; "education"; "profile-section";
              "accomplishment"] value).

Definition isContentItemVisibility (value : js_value) : result bool :=
  ret (js_type_eqb (typeof value) TString)
  &&& ret (includes ["published"; "draft"; "archived"] value).

Definition hasBaseContentItemFields (value : js_value) : result bool :=
  typeof_is value.["id"] TString
  &&& (value.["type"] >>= isContentItemType)
  &&& typeof_is value.["userId"] TString
  &&& (equals value.["parentId"] LNull ||| typeof_is value.["parentId"] TString)
  &&& typeof_is value.["order"] TNumber
  &&& (value.["createdAt"] >>= isDateLike)
  &&& (value.["updatedAt"] >>= isDateLike)
  &&& typeof_is value.["createdBy"] TString
  &&& typeof_is value.["updatedBy"] TString.

Definition isCompanyItem (value : js_value) : result bool :=
  o <- isObject value ;;
  if negb o then ret false
  else
    base <- hasBaseContentItemFields value ;;
    if negb base then ret false
    else
      let item := value in
      equals item.["type"] (LString "company")
      &&& typeof_is item.["company"] TString
      &&& typeof_is item.["startDate"] TString.

Definition isProjectItem (value : js_value) : result bool :=
  o <- isObject value ;;
  if negb o then ret false
  else
    base <- hasBaseContentItemFields value ;;
    if negb base then ret false
    else
      let item := value in
      equals item.["type"] (LString "project")
      &&& typeof_is item.["name"] TString
      &&& typeof_is item.["description"] TString.

Definition isSkillGroupItem (value : js_value) : result bool :=
  o <- isObject value ;;
  if negb o then ret false
  else
    base <- hasBaseContentItemFields value ;;
    if negb base then ret false
    else
      let item := value in
      equals item.["type"] (LString "skill-group")
      &&& typeof_is item.["category"] TString
      &&& (item.["skills"] >>= isStringArray).

Definition isEducationItem (value : js_value) : result bool :=
  o <- isObject value ;;
  if negb o then ret false
  else
    base <- hasBaseContentItemFields value ;;
    if negb base then ret false
    else
      let item := value in
      equals item.["type"] (LString "education")
      &&& typeof_is item.["institution"] TString.

Definition isProfileSectionItem (value : js_value) : result bool :=
  o <- isObject value ;;
  if negb o then ret false
  else
    base <- hasBaseContentItemFields value ;;
    if negb base then ret false
    else
      let item := value in
      equals item.["type"] (LString "profile-section")
      &&& typeof_is item.["heading"] TString
      &&& typeof_is item.["content"] TString.

Definition isAccomplishmentItem (value : js_value) : result bool :=
  o <- isObject value ;;
  if negb o then ret false
  else
    base <- hasBaseContentItemFields value ;;
    if negb base then ret false
    else
      let item := value in
      equals item.["type"] (LString "accomplishment")
      &&& typeof_is item.["description"] TString.

Definition isContentItem (value : js_value) : result bool :=
  isCompanyItem value
  ||| isProjectItem value
  ||| isSkillGroupItem value
  ||| isEducationItem value
  ||| isProfileSectionItem value
  ||| isAccomplishmentItem value.

(** ** Content item variants *)

Inductive ContentItemVariant : Type :=
| CompanyItem
| ProjectItem
| SkillGroupItem
| EducationItem
| ProfileSectionItem
| AccomplishmentItem.

(** The literal each variant guard compares [type] with. *)
Definition discriminator (A : ContentItemVariant) : string :=
  match A with
  | CompanyItem => "company"
  | ProjectItem => "project"
  | SkillGroupItem => "skill-group"
  | EducationItem => "education"
  | ProfileSectionItem => "profile-section"
  | AccomplishmentItem => "accomplishment"
  end.

Definition variant_guard (A : ContentItemVariant) : js_value -> result bool :=
  match A with
  | CompanyItem => isCompanyItem
  | ProjectItem => isProjectItem
  | SkillGroupItem => isSkillGroupItem
  | EducationItem => isEducationItem
  | ProfileSectionItem => isProfileSectionItem
  | AccomplishmentItem => isAccomplishmentItem
  end.

(** The checks each variant guard makes beyond the base fields and the
    discriminator. *)
Definition variant_fields (A : ContentItemVariant) (item : js_value) : result bool :=
  match A with
  | CompanyItem =>
      typeof_is item.["company"] TString &&& typeof_is item.["startDate"] TString
  | ProjectItem =>
      typeof_is item.["name"] TString &&& typeof_is item.["description"] TString
  | SkillGroupItem =>
      typeof_is item.["category"] TString &&& (item.["skills"] >>= isStringArray)
  | EducationItem => typeof_is item.["institution"] TString
  | ProfileSectionItem =>
      typeof_is item.["heading"] TString &&& typeof_is item.["content"] TString
  | AccomplishmentItem => typeof_is item.["description"] TString
  end.

(** ** Specification-side predicates *)

(** The envelope as the specification describes it: a non-null object
    with a boolean [success]; a [data] key on the success arm; on the
    error arm an [error] that is a non-null object with string [code] and
    [message]. *)
Definition ApiResponse_shape (v : js_value) : Prop :=
  typeof v = TObject /\ v <> VNull /\
  exists b : bool, v.["success"] = Ok (VBool b) /\
    if b then has_property "data" v = Ok true
    else exists e, v.["error"] = Ok e /\ typeof e = TObject /\ e <> VNull /\
           (exists c, e.["code"] = Ok (VString c)) /\
           (exists m, e.["message"] = Ok (VString m)).

(** The property [k] that a non-null object shows, whatever its class. *)
Definition property (v : js_value) (k : string) : option js_value :=
  match v with
  | VObject fs => lookup k fs
  | VArray items props => array_property items props k
  | VDate _ props | VDateProto props => lookup k props
  | _ => None
  end.

(** No array inside [v], at any depth, shows a property called [m] in
    place of the method it inherits: the [m] of every array is the method
    of [Array.prototype]. *)
Fixpoint arrays_keep (m : string) (v : js_value) : bool :=
  match v with
  | VArray items props =>
      negb (is_some (lookup m props))
      && forallb (arrays_keep m) items
      && forallb (fun kv => arrays_keep m (snd kv)) props
  | VObject props | VDate _ props | VDateProto props | VFunction props =>
      forallb (fun kv => arrays_keep m (snd kv)) props
  | _ => true
  end.

(** ** Guard families *)

(** The exported guards with a parameter of type [unknown] (or, for the
    two helpers of queue.types.ts, a string of any provenance) that call
    no method of their input. *)
Definition guards_without_calls (hostParse : string -> option Z)
  : list (js_value -> result bool) :=
  [ isApiResponse; isISODateString hostParse; isNonEmptyString;
    isNonEmptyArray; isValidUrl; isValidEmail;
    isQueueStatus; isQueueItemType; isQueueSource; isQueueItem;
    isQueueSettings; isAIProvider; isAISettings; isGapMitigation; isJobListing;
    isCompany; isContentItemType; isContentItemVisibility;
    isCompanyItem; isProjectItem; isEducationItem;
    isProfileSectionItem; isAccomplishmentItem ].

(** Those that call [every] on an array they find in their input, through
    [isStringArray] or directly. *)
Definition guards_calling_every : list (js_value -> result bool) :=
  [ isStopList; isExperienceHighlight; isProjectRecommendation;
    isResumeIntakeData; isJobMatch; isSkillGroupItem; isContentItem ].

(** All of them; [isDate] is the one that calls [getTime]. *)
Definition unknown_guards (hostParse : string -> option Z)
  : list (js_value -> result bool) :=
  (isDate :: guards_without_calls hostParse ++ guards_calling_every)%list.

(** The guards that start with the [isObject] test. *)
Definition isObject_guards : list (js_value -> result bool) :=
  [ isQueueItem; isStopList; isQueueSettings; isAISettings;
    isExperienceHighlight; isProjectRecommendation; isGapMitigation;
    isResumeIntakeData; isJobListing; isJobMatch; isCompany;
    isCompanyItem; isProjectItem; isSkillGroupItem; isEducationItem;
    isProfileSectionItem; isAccomplishmentItem; isContentItem ].

(** The guards for record-shaped entities. *)
Definition entity_guards : list (js_value -> result bool) :=
  isApiResponse :: isObject_guards.

(** The fields of [QueueItem] declared optional. *)
Definition QueueItem_optional : list string :=
  ["id"; "result_message"; "error_details"; "processed_at"; "completed_at"].

(** ** Sample documents *)

(** A Firestore timestamp as it arrives before conversion. *)
Definition sample_timestamp : js_value :=
  object_of [("seconds", VNumber (S754_finite false 1704067200 0));
             ("nanoseconds", VNumber (number_of_nat 0));
             ("toDate", VFunction [])].

(** The base fields of a content item with discriminator [type], followed
    by [extra]. *)
Definition sample_content_item (type : string) (extra : list (string * js_value))
  : js_value :=
  object_of ([("id", VString "c1"); ("type", VString type); ("userId", VString "u1");
              ("parentId", VNull); ("order", VNumber (number_of_nat 0));
              ("createdAt", VDate (Some 1704067200000%Z) []);
              ("updatedAt", sample_timestamp);
              ("createdBy", VString "u1"); ("updatedBy", VString "u1")] ++ extra).


Definition sample_company_item : js_value :=
  sample_content_item "company"
    [("company", VString "Acme"); ("startDate", VString "2020-01")].

(** A queue item with the required fields only, its two timestamps being
    [created] and [updated]. *)
Definition sample_queue_item (created updated : js_value) : list (string * js_value) :=
  [("type", VString "job"); ("status", VString "pending");
   ("url", VString "https://example.com/jobs/1"); ("company_name", VString "Acme");
   ("company_id", VNull); ("source", VString "user_submission");
   ("submitted_by", VNull); ("retry_count", VNumber (number_of_nat 0));
   ("max_retries", VNumber (number_of_nat 3));
   ("created_at", created); ("updated_at", updated)].

(** The checks of the required fields of a queue item, field by field,
    on the properties [fs] of an object. *)
Definition QueueItem_required (fs : list (string * js_value)) : Prop :=
  let field k := or_undefined (lookup k fs) in
  (exists t, field "type" = VString t /\ In t ["job"; "company"])
  /\ (exists s, field "status" = VString s
                /\ In s ["pending"; "processing"; "success"; "failed"; "skipped"])
  /\ typeof (field "url") = TString
  /\ typeof (field "company_name") = TString
  /\ (field "company_id" = VNull \/ typeof (field "company_id") = TString)
  /\ isQueueSource (field "source") = Ok true
  /\ (field "submitted_by" = VNull \/ typeof (field "submitted_by") = TString)
  /\ typeof (field "retry_count") = TNumber
  /\ typeof (field "max_retries") = TNumber
  /\ isDateLike (field "created_at") = Ok true
  /\ isDateLike (field "updated_at") = Ok true.



(** [10 ^ w]. *)
Fixpoint pow10 (w : nat) : Z :=
  match w with
  | O => 1%Z
  | S w' => (10 * pow10 w')%Z
  end.

(** The largest magnitude of a time value. *)
Definition max_time_value : Z := 8640000000000000%Z.

(** ** Languages of regular expressions *)

(** [matches_lang r s]: the string [s] belongs to the language of [r]. *)
Inductive matches_lang : Regex.t -> string -> Prop :=
| lang_eps : matches_lang Regex.Eps ""
| lang_class (p : ascii -> bool) (c : ascii) :
    p c = true -> matches_lang (Regex.Class p) (String c "")
| lang_cat (r1 r2 : Regex.t) (s1 s2 : string) :
    matches_lang r1 s1 -> matches_lang r2 s2 -> matches_lang (Regex.Cat r1 r2) (s1 ++ s2)
| lang_alt_l (r1 r2 : Regex.t) (s : string) :
    matches_lang r1 s -> matches_lang (Regex.Alt r1 r2) s
| lang_alt_r (r1 r2 : Regex.t) (s : string) :
    matches_lang r2 s -> matches_lang (Regex.Alt r1 r2) s
| lang_star_nil (r : Regex.t) : matches_lang (Regex.Star r) ""
| lang_star_cons (r : Regex.t) (s1 s2 : string) :
    matches_lang r s1 -> matches_lang (Regex.Star r) s2 ->
    matches_lang (Regex.Star r) (s1 ++ s2).

(** Every code unit of [s] satisfies [p]. *)
Fixpoint all_chars (p : ascii -> bool) (s : string) : bool :=
  match s with
  | EmptyString => true
  | String c rest => p c && all_chars p rest
  end.

(** A non-empty run of code units that are neither white space nor [@]:
    what [[^\s@]+] matches. *)
Definition email_word (s : string) : bool :=
  negb (String.eqb s "")
  && all_chars (fun c => negb (is_space c || Ascii.eqb c "@")) s.

(** ** Declared unions and fields read *)

Inductive AIProvider : Type := claude | openai | gemini.

Definition AIProvider_literal (p : AIProvider) : string :=
  match p with
  | claude => "claude"
  | openai => "openai"
  | gemini => "gemini"
  end.

(** The property names [hasBaseContentItemFields] reads. *)
Definition base_content_item_fields : list string :=
  ["id"; "type"; "userId"; "parentId"; "order"; "createdAt"; "updatedAt"; "createdBy";
   "updatedBy"].

(** Each record guard with the property names it reads. *)
Definition record_guard_fields : list ((js_value -> result bool) * list string) :=
  [ (isApiResponse, ["success"; "data"; "error"]);
    (isQueueItem,
      ["type"; "status"; "url"; "company_name"; "company_id"; "source"; "submitted_by";
       "retry_count"; "max_retries"; "created_at"; "updated_at"]);
    (isStopList, ["excludedCompanies"; "excludedKeywords"; "excludedDomains"]);
    (isQueueSettings, ["maxRetries"; "retryDelaySeconds"; "processingTimeout"]);
    (isAISettings, ["provider"; "model"; "minMatchScore"; "costBudgetDaily"]);
    (isExperienceHighlight, ["company"; "title"; "pointsToEmphasize"]);
    (isProjectRecommendation, ["name"; "whyRelevant"; "pointsToHighlight"]);
    (isGapMitigation, ["missingSkill"; "mitigationStrategy"; "coverLetterPoint"]);
    (isResumeIntakeData,
      ["jobId"; "jobTitle"; "company"; "targetSummary"; "skillsPriority";
       "experienceHighlights"; "projectsToInclude"; "achievementAngles"; "atsKeywords"]);
    (isJobListing,
      ["title"; "company"; "companyWebsite"; "location"; "description"; "url"]);
    (isJobMatch,
      ["url"; "companyName"; "jobTitle"; "jobDescription"; "matchScore"; "matchedSkills";
       "missingSkills"; "matchReasons"; "keyStrengths"; "potentialConcerns";
       "experienceMatch"; "applicationPriority"; "customizationRecommendations";
       "analyzedAt"; "createdAt"; "submittedBy"; "queueItemId"]);
    (isCompany, ["name"; "website"]);
    (isCompanyItem, (base_content_item_fields ++ ["company"; "startDate"])%list);
    (isProjectItem, (base_content_item_fields ++ ["name"; "description"])%list);
    (isSkillGroupItem, (base_content_item_fields ++ ["category"; "skills"])%list);
    (isEducationItem, (base_content_item_fields ++ ["institution"])%list);
    (isProfileSectionItem, (base_content_item_fields ++ ["heading"; "content"])%list);
    (isAccomplishmentItem, (base_content_item_fields ++ ["description"])%list);
    (isContentItem,
      (base_content_item_fields
       ++ ["company"; "startDate"; "name"; "description"; "category"; "skills";
           "institution"; "heading"; "content"])%list) ].

(** ** scripts/extract-firestore-schema.js *)

(** The string [typeof] evaluates to. *)
Definition typeof_name (t : js_type) : string :=
  match t with
  | TUndefined => "undefined"
  | TObject => "object"
  | TBoolean => "boolean"
  | TNumber => "number"
  | TBigInt => "bigint"
  | TString => "string"
  | TSymbol => "symbol"
  | TFunction => "function"
  end.

(** [set.add(x)] on a [Set] of strings kept in insertion order. *)
Definition set_add (x : string) (set : list string) : list string :=
  if existsb (String.eqb x) set then set else (set ++ [x])%list.

(** [[...new Set(l)]]: the distinct elements of [l] in order of first
    occurrence. *)
Definition unique (l : list string) : list string :=
  fold_left (fun set x => set_add x set) l [].

Fixpoint getType (value : js_value) : result string :=
  if strict_eq value LNull then ret "null"
  else if strict_eq value LUndefined then ret "undefined"
  else
    match value with
    | VArray items props =>
        if Nat.eqb (List.length items) 0 then ret "array"
        else
          (* Get unique types in array *)
          mapped <- call_method props "map"
                      ((fix map_getType (l : list js_value) : result (list string) :=
                          match l with
                          | [] => ret []
                          | v :: rest =>
                              t <- getType v ;; ts <- map_getType rest ;; ret (t :: ts)
                          end) items) ;;
          let types := unique mapped in
          if Nat.eqb (List.length types) 1 then ret (nth 0 types "undefined" ++ "[]")
          else ret "array"
    | _ =>
        if instanceof_Date value then ret "Date"
        else
          timestamp <- ret (truthy value)
                       &&& ret (js_type_eqb (typeof value) TObject)
                       &&& (s <- value.["_seconds"] ;; ret (negb (strict_eq s LUndefined))) ;;
          if timestamp then ret "Timestamp"
          else if js_type_eqb (typeof value) TObject then ret "object"
          else ret (typeof_name (typeof value))
    end.

(** [value.map(v => getType(v))]. *)
Fixpoint map_getType (l : list js_value) : result (list string) :=
  match l with
  | [] => ret []
  | v :: rest => t <- getType v ;; ts <- map_getType rest ;; ret (t :: ts)
  end.

(** Induction on values that reaches the elements of arrays and the
    property values of plain objects. *)
Section ValueInduction.

Variable P : js_value -> Prop.
Hypothesis P_undefined : P VUndefined.
Hypothesis P_null : P VNull.
Hypothesis P_bool : forall b, P (VBool b).
Hypothesis P_number : forall n, P (VNumber n).
Hypothesis P_bigint : forall z, P (VBigInt z).
Hypothesis P_string : forall s, P (VString s).
Hypothesis P_symbol : forall d, P (VSymbol d).
Hypothesis P_function : forall props, P (VFunction props).
Hypothesis P_date : forall tv props, P (VDate tv props).
Hypothesis P_date_proto : forall props, P (VDateProto props).
Hypothesis P_array : forall items props, Forall P items -> P (VArray items props).
Hypothesis P_object : forall fs, Forall (fun kv => P (snd kv)) fs -> P (VObject fs).

Fixpoint js_value_deep_ind (v : js_value) : P v :=
  match v with
  | VUndefined => P_undefined
  | VNull => P_null
  | VBool b => P_bool b
  | VNumber n => P_number n
  | VBigInt z => P_bigint z
  | VString s => P_string s
  | VSymbol d => P_symbol d
  | VFunction props => P_function props
  | VDate tv props => P_date tv props
  | VDateProto props => P_date_proto props
  | VArray items props =>
      P_array items props
        ((fix go (l : list js_value) : Forall P l :=
            match l with
            | [] => Forall_nil P
            | x :: rest => Forall_cons x (js_value_deep_ind x) (go rest)
            end) items)
  | VObject fs =>
      P_object fs
        ((fix go (l : list (string * js_value)) : Forall (fun kv => P (snd kv)) l :=
            match l with
            | [] => Forall_nil _
            | kv :: rest => Forall_cons kv (js_value_deep_ind (snd kv)) (go rest)
            end) fs)
  end.

End ValueInduction.

(** *** Schemas *)

(** Finite maps from property names, as JavaScript objects keep them:
    a new key goes last, an existing key keeps its place. *)
Fixpoint assoc_get {A : Type} (k : string) (m : list (string * A)) : option A :=
  match m with
  | [] => None
  | (k', a) :: rest => if String.eqb k k' then Some a else assoc_get k rest
  end.

Fixpoint assoc_set {A : Type} (k : string) (a : A) (m : list (string * A))
  : list (string * A) :=
  match m with
  | [] => [(k, a)]
  | (k', a') :: rest =>
      if String.eqb k k' then (k, a) :: rest else (k', a') :: assoc_set k a rest
  end.

(** [{ ...a, ...b }]. *)
Definition spread_merge {A : Type} (a b : list (string * A)) : list (string * A) :=
  fold_left (fun m kv => assoc_set (fst kv) (snd kv) m) b a.

(** What [analyzeDocument] records about a nested property. *)
Record property_info : Type := {
  prop_type : string;
  prop_nullable : bool
}.

(** What [analyzeDocument] records about a field; [info_properties] is
    present for fields of type "object" only. *)
Record field_info : Type := {
  info_type : string;
  info_nullable : bool;
  info_sample : string;
  info_properties : option (list (string * property_info))
}.

Definition schema : Type := list (string * field_info).

(** What [mergeSchemas] accumulates about a field. *)
Record merged_field : Type := {
  merged_types : list string;
  merged_nullable : bool;
  merged_samples : list string;
  merged_properties : list (string * property_info)
}.

(** The members every object literal inherits from [Object.prototype]:
    [merged[name]] is truthy for these names although [merged] has no such
    property of its own. *)
Definition Object_prototype_names : list string :=
  ["constructor"; "__defineGetter__"; "__defineSetter__"; "hasOwnProperty";
   "__lookupGetter__"; "__lookupSetter__"; "isPrototypeOf"; "propertyIsEnumerable";
   "toString"; "valueOf"; "__proto__"; "toLocaleString"].

Definition inherited (field : string) : bool :=
  existsb (String.eqb field) Object_prototype_names.

(** The first sighting of a field. *)
Definition merged_init (info : field_info) : merged_field :=
  {| merged_types := [info_type info];
     merged_nullable := info_nullable info;
     merged_samples := [info_sample info];
     merged_properties := match info_properties info with
                          | Some ps => ps
                          | None => []
                          end |}.

(** A further sighting of a field. *)
Definition merged_update (m : merged_field) (info : field_info) : merged_field :=
  {| merged_types := set_add (info_type info) (merged_types m);
     merged_nullable := merged_nullable m || info_nullable info;
     merged_samples := set_add (info_sample info) (merged_samples m);
     merged_properties := match info_properties info with
                          | Some ps => spread_merge (merged_properties m) ps
                          | None => merged_properties m
                          end |}.

(** The body of the inner loop of [mergeSchemas].  An inherited member
    makes [!merged[field]] false, and has no [types] to add to. *)
Definition merge_field (merged : list (string * merged_field)) (field : string)
  (info : field_info) : result (list (string * merged_field)) :=
  match assoc_get field merged with
  | Some m => ret (assoc_set field (merged_update m info) merged)
  | None =>
      if inherited field then Throw TypeError
      else ret (assoc_set field (merged_init info) merged)
  end.

Fixpoint merge_schema (merged : list (string * merged_field)) (entries : schema)
  : result (list (string * merged_field)) :=
  match entries with
  | [] => ret merged
  | (field, info) :: rest =>
      merged' <- merge_field merged field info ;; merge_schema merged' rest
  end.

Fixpoint merge_schemas (merged : list (string * merged_field)) (schemas : list schema)
  : result (list (string * merged_field)) :=
  match schemas with
  | [] => ret merged
  | s :: rest => merged' <- merge_schema merged s ;; merge_schemas merged' rest
  end.

(** The sets of types are already in insertion order, which is what
    [Array.from] produces. *)
Definition mergeSchemas (schemas : list schema) : result (list (string * merged_field)) :=
  merge_schemas [] schemas.

(** The records of the field [f] in the order [mergeSchemas] meets them. *)
Definition sightings (f : string) (schemas : list schema) : list field_info :=
  map snd (filter (fun kv => String.eqb f (fst kv)) (concat schemas)).

(** The merge of the sightings of one field. *)
Definition merge_sightings (infos : list field_info) : option merged_field :=
  match infos with
  | [] => None
  | first :: rest => Some (fold_left merged_update rest (merged_init first))
  end.

(** One more sighting of a field, on what is known of it so far. *)
Definition merge_sighting (o : option merged_field) (info : field_info)
  : option merged_field :=
  Some (match o with
        | Some m => merged_update m info
        | None => merged_init info
        end).

(** Two documents' schemas with a field that is null in one of them. *)
Definition sample_schemas : list schema :=
  [ [("url", {| info_type := "string"; info_nullable := false; info_sample := "a";
               info_properties := None |});
     ("company_id", {| info_type := "null"; info_nullable := true; info_sample := "null";
                      info_properties := None |})];
    [("company_id", {| info_type := "string"; info_nullable := false; info_sample := "c1";
                      info_properties := None |});
     ("url", {| info_type := "string"; info_nullable := false; info_sample := "a";
               info_properties := None |})] ].

(** The record of the nested property [p] in the latest of [infos] that
    has one, [acc] if none has. *)
Fixpoint nested_latest (p : string) (infos : list field_info) (acc : option property_info)
  : option property_info :=
  match infos with
  | [] => acc
  | info :: rest =>
      nested_latest p rest
        (match info_properties info with
         | Some ps => match assoc_get p ps with
                      | Some x => Some x
                      | None => acc
                      end
         | None => acc
         end)
  end.

(** The nested properties of every record have distinct names, as the
    properties of an object do. *)
Definition distinct_nested (infos : list field_info) : Prop :=
  Forall (fun info => match info_properties info with
                      | Some ps => NoDup (map fst ps)
                      | None => True
                      end) infos.

(** [obj[k] = a] on an object literal: assigning to ["__proto__"] sets
    the prototype and adds no property. *)
Definition assign {A : Type} (k : string) (a : A) (m : list (string * A))
  : list (string * A) :=
  if String.eqb k "__proto__" then m else assoc_set k a m.

(** [Object.entries(v)] for a value [getType] reports as "object". *)
Definition own_entries (v : js_value) : list (string * js_value) :=
  match v with
  | VObject fs => fs
  | _ => []
  end.

Section AnalyzeDocument.

(** [JSON.stringify(value, null, 2)] and [String(value)], either of which
    may raise; the former also stands for the failure of [substring] on a
    result that is not a string. *)
Variable JSON_stringify : js_value -> result string.
Variable String_of : js_value -> result string.

Definition sample_of (type : string) (value : js_value) : result string :=
  if String.eqb type "object" || String.eqb type "array"
  then s <- JSON_stringify value ;; ret (substring 0 200 s)
  else s <- String_of value ;; ret (substring 0 100 s).

(** The loop over the nested properties of an object-typed field. *)
Fixpoint analyze_properties (entries : list (string * js_value))
  (properties : list (string * property_info)) : result (list (string * property_info)) :=
  match entries with
  | [] => ret properties
  | (nestedKey, nestedValue) :: rest =>
      type <- getType nestedValue ;;
      analyze_properties rest
        (assign nestedKey
           {| prop_type := type; prop_nullable := strict_eq nestedValue LNull |}
           properties)
  end.

(** The loop over the fields of a document. *)
Fixpoint analyze_entries (entries : list (string * js_value)) (acc : schema)
  : result schema :=
  match entries with
  | [] => ret acc
  | (key, value) :: rest =>
      type <- getType value ;;
      sample <- sample_of type value ;;
      (* For nested objects, recursively analyze *)
      properties <- (if String.eqb type "object" && negb (strict_eq value LNull)
                     then ps <- analyze_properties (own_entries value) [] ;; ret (Some ps)
                     else ret None) ;;
      analyze_entries rest
        (assign key
           {| info_type := type;
              info_nullable := strict_eq value LNull;
              info_sample := sample;
              info_properties := properties |}
           acc)
  end.

(** [analyzeDocument(doc)], on the fields [doc.data()] returns. *)
Definition analyzeDocument (data : list (string * js_value)) : result schema :=
  analyze_entries data [].

End AnalyzeDocument.

(** What the record [info] says about the value [v] it was made from. *)
Definition describes (v : js_value) (info : field_info) : Prop :=
  getType v = Ok (info_type info)
  /\ info_nullable info = strict_eq v LNull
  /\ is_some (info_properties info) = String.eqb (info_type info) "object".

(** Two schemas whose field [location] is an object; the nested [city] is
    null in the first and a string in the second. *)
Definition sample_nested_schemas : list schema :=
  [ [("location",
       {| info_type := "object"; info_nullable := false; info_sample := "{}";
          info_properties :=
            Some [("city", {| prop_type := "null"; prop_nullable := true |});
                  ("zip", {| prop_type := "string"; prop_nullable := false |})] |})];
    [("location",
       {| info_type := "object"; info_nullable := false; info_sample := "{}";
          info_properties :=
            Some [("city", {| prop_type := "string"; prop_nullable := false |})] |})] ].

(** Two documents of one collection; [company_id] is null in the first. *)
Definition sample_documents : list (list (string * js_value)) :=
  [ [("url", VString "https://example.com/1"); ("company_id", VNull);
     ("tags", VArray [VString "a"; VString "b"] [])];
    [("url", VString "https://example.com/2"); ("company_id", VString "c1");
     ("meta", VObject [("pages", VNumber (number_of_nat 3))])] ].

(** * Properties *)

(** ** The exception monad *)

Lemma js_and_true_iff (a b : result bool) :
  a &&& b = Ok true <-> a = Ok true /\ b = Ok true.
Proof.
  unfold js_and, bind, ret.
  destruct a as [[]|]; split; try tauto; try discriminate.
  all: intros [H _]; discriminate H.
Qed.

Lemma js_or_false_iff (a b : result bool) :
  a ||| b = Ok false <-> a = Ok false /\ b = Ok false.
Proof.
  unfold js_or, bind, ret.
  destruct a as [[]|]; split; try tauto; try discriminate.
  all: intros [H _]; discriminate H.
Qed.

Lemma returns_ret {A : Type} (a : A) : returns (ret a).
Proof. now exists a. Qed.

Lemma returns_bind {A B : Type} (m : result A) (k : A -> result B) :
  returns m -> (forall a, returns (k a)) -> returns (m >>= k).
Proof. intros [a ->] H. apply H. Qed.

Lemma returns_js_and (a b : result bool) : returns a -> returns b -> returns (a &&& b).
Proof.
  intros [x ->] Hb. unfold js_and. cbn. destruct x; [assumption | apply returns_ret].
Qed.

Lemma returns_js_or (a b : result bool) : returns a -> returns b -> returns (a ||| b).
Proof.
  intros [x ->] Hb. unfold js_or. cbn. destruct x; [apply returns_ret | assumption].
Qed.

Lemma returns_typeof_is (e : result js_value) (t : js_type) :
  returns e -> returns (typeof_is e t).
Proof. intros [v ->]. apply returns_ret. Qed.

Lemma returns_equals (e : result js_value) (l : literal) :
  returns e -> returns (equals e l).
Proof. intros [v ->]. apply returns_ret. Qed.

(** A guard of the shape [if (!test) return false; rest]. *)
Lemma guarded_true_iff (test rest : result bool) :
  (b <- test ;; if negb b then ret false else rest) = Ok true
  <-> test = Ok true /\ rest = Ok true.
Proof.
  unfold bind, ret.
  destruct test as [[]|]; cbn; split; try tauto; try discriminate.
  all: intros [H _]; discriminate H.
Qed.

Lemma returns_guarded (test rest : result bool) :
  returns test -> (test = Ok true -> returns rest) ->
  returns (b <- test ;; if negb b then ret false else rest).
Proof.
  intros [[] ->] H; cbn; [ now apply H | apply returns_ret ].
Qed.

Lemma equals_string_true (e : result js_value) (s : string) :
  equals e (LString s) = Ok true <-> e = Ok (VString s).
Proof.
  unfold equals, bind, ret. destruct e as [v|]; [|split; discriminate].
  split.
  - intros H. injection H as H. destruct v; try discriminate H.
    cbn in H. apply String.eqb_eq in H. now subst.
  - intros H. injection H as ->. cbn. now rewrite String.eqb_refl.
Qed.

(** ** The response envelope *)

Lemma typeof_string_inv (v : js_value) :
  js_type_eqb (typeof v) TString = true <-> exists s, v = VString s.
Proof.
  split.
  - destruct v; simpl; try discriminate. intros _. now exists s.
  - intros [s ->]. reflexivity.
Qed.

Lemma typeof_is_string_get (e : js_value) (k : string) :
  typeof_is e.[k] TString = Ok true <-> exists s, e.[k] = Ok (VString s).
Proof.
  unfold typeof_is. destruct (e.[k]) as [x|]; simpl.
  - split.
    + intros H. injection H as H. apply typeof_string_inv in H as [s ->]. now exists s.
    + intros [s H]. injection H as ->. reflexivity.
  - split; [discriminate | intros [s H]; discriminate].
Qed.

Lemma isApiResponse_not_object (v : js_value) :
  js_type_eqb (typeof v) TObject = false -> isApiResponse v = Ok false.
Proof.
  intros H. unfold isApiResponse. rewrite H. now rewrite orb_true_r.
Qed.

Lemma get_property (v : js_value) (k : string) :
  truthy v = true -> js_type_eqb (typeof v) TObject = true ->
  v.[k] = Ok (or_undefined (property v k)).
Proof.
  intros Ht Hty. destruct v; try discriminate Ht; try discriminate Hty; reflexivity.
Qed.

Lemma has_property_property (k : string) (v : js_value) :
  truthy v = true -> js_type_eqb (typeof v) TObject = true ->
  has_property k v = Ok (is_some (property v k)).
Proof.
  intros Ht Hty. destruct v; try discriminate Ht; try discriminate Hty; reflexivity.
Qed.

(** The decision of [isApiResponse] on a non-null object of any class,
    in terms of the properties it shows. *)
Lemma isApiResponse_props (v : js_value) :
  truthy v = true -> js_type_eqb (typeof v) TObject = true ->
  isApiResponse v =
  match property v "success" with
  | Some (VBool true) => Ok (is_some (property v "data"))
  | Some (VBool false) =>
      match property v "error" with
      | Some e =>
          if truthy e && js_type_eqb (typeof e) TObject
          then typeof_is e.["code"] TString &&& typeof_is e.["message"] TString
          else Ok false
      | None => Ok false
      end
  | _ => Ok false
  end.
Proof.
  intros Ht Hty. unfold isApiResponse. rewrite Ht, Hty.
  cbv beta iota zeta delta [negb orb].
  rewrite (get_property v "success" Ht Hty), (get_property v "error" Ht Hty),
    (has_property_property "data" v Ht Hty).
  unfold typeof_is at 1. unfold equals, js_or.
  cbn [bind ret].
  destruct (property v "success") as [[| |[]| | | | | | | | |]|]; try reflexivity.
  cbn [or_undefined strict_eq Bool.eqb typeof js_type_eqb negb].
  unfold typeof_is at 1. cbn [bind ret].
  destruct (property v "error") as [e|]; cbn [or_undefined]; [|reflexivity].
  destruct (truthy e); cbn [negb andb]; [|reflexivity].
  destruct (js_type_eqb (typeof e) TObject); reflexivity.
Qed.

Lemma isApiResponse_object (fs : list (string * js_value)) :
  isApiResponse (VObject fs) =
  match lookup "success" fs with
  | Some (VBool true) => Ok (is_some (lookup "data" fs))
  | Some (VBool false) =>
      match lookup "error" fs with
      | Some e =>
          if truthy e && js_type_eqb (typeof e) TObject
          then typeof_is e.["code"] TString &&& typeof_is e.["message"] TString
          else Ok false
      | None => Ok false
      end
  | _ => Ok false
  end.
Proof. exact (isApiResponse_props (VObject fs) eq_refl eq_refl). Qed.

Lemma isApiResponse_null : isApiResponse VNull = Ok false.
Proof. reflexivity. Qed.

Lemma isApiResponse_iff (v : js_value) :
  isApiResponse v = Ok true <-> ApiResponse_shape v.
Proof.
  unfold ApiResponse_shape.
  destruct (js_type_eqb (typeof v) TObject) eqn:Hty.
  2: { rewrite isApiResponse_not_object by exact Hty.
       split; [ discriminate | intros (H & _); rewrite H in Hty; discriminate Hty ]. }
  destruct (truthy v) eqn:Ht.
  2: { assert (v = VNull) as -> by (destruct v; try discriminate Hty; try discriminate Ht;
                                     reflexivity).
       split; [ discriminate | intros (_ & H & _); now elim H ]. }
  assert (typeof v = TObject) as Hobj by (destruct (typeof v); try discriminate Hty; reflexivity).
  assert (v <> VNull) as Hnn by (intros ->; discriminate Ht).
  rewrite (isApiResponse_props v Ht Hty).
  rewrite (get_property v "success" Ht Hty), (get_property v "error" Ht Hty),
    (has_property_property "data" v Ht Hty).
  split.
  - intros H. split; [exact Hobj|]. split; [exact Hnn|].
    destruct (property v "success") as [[| |[]| | | | | | | | |]|]; try discriminate H.
    + exists true. split; [reflexivity|]. exact H.
    + exists false. split; [reflexivity|].
      destruct (property v "error") as [e|]; [|discriminate H].
      exists e. split; [reflexivity|].
      destruct (truthy e) eqn:Hte; [|discriminate H].
      destruct (js_type_eqb (typeof e) TObject) eqn:Htye; [|discriminate H].
      cbn [andb] in H.
      split; [ destruct (typeof e); try discriminate Htye; reflexivity |].
      split; [ intros ->; discriminate Hte |].
      unfold js_and in H.
      destruct (typeof_is e.["code"] TString) as [[]|] eqn:Hc; try discriminate H.
      cbn in H. split; apply typeof_is_string_get; assumption.
  - intros (_ & _ & b & Hs & H).
    destruct (property v "success") as [x|]; [|discriminate Hs].
    cbn in Hs. injection Hs as ->. destruct b.
    + exact H.
    + destruct H as (e & He & Htye & Hn & Hc & Hm).
      destruct (property v "error") as [e'|]; cbn in He.
      * injection He as ->.
        assert (truthy e = true) as ->
          by (destruct e; try discriminate Htye; [ now elim Hn | reflexivity.. ]).
        rewrite Htye. cbn.
        apply typeof_is_string_get in Hc, Hm. rewrite Hc, Hm. reflexivity.
      * injection He as <-. discriminate Htye.
Qed.

(** C1.  [isApiResponse] accepts exactly the values of the envelope's
    shape: a non-null object with a boolean [success], carrying a [data]
    key when [success] is true (the payload is not inspected) and, when
    [success] is false, an [error] that is a non-null object with string
    [code] and [message]; with the five sample verdicts of the
    specification. *)
Theorem isApiResponse_spec :
  (forall v, isApiResponse v = Ok true <-> ApiResponse_shape v)
  /\ isApiResponse (object_of [("success", VBool true); ("data", object_of [])]) = Ok true
  /\ isApiResponse (object_of [("success", VBool true)]) = Ok false
  /\ isApiResponse
       (object_of [("success", VBool false);
                   ("error", object_of [("code", VString "X"); ("message", VString "m")])])
     = Ok true
  /\ isApiResponse
       (object_of [("success", VBool false); ("error", object_of [("code", VString "X")])])
     = Ok false
  /\ isApiResponse (object_of []) = Ok false.
Proof.
  split; [ exact isApiResponse_iff | repeat split; reflexivity ].
Qed.

Lemma isApiResponse_spec_witness :
  isApiResponse (VObject [("data", VNull); ("success", VBool true)]) = Ok true.
Proof.
  apply (proj1 isApiResponse_spec).
  unfold ApiResponse_shape.
  split; [ reflexivity | ]. split; [ discriminate | ].
  exists true. split; reflexivity.
Defined.

(** C2.  Whatever the payload and the optional message, the envelope built
    by [createSuccessResponse] passes [isApiResponse]; whatever the code,
    the message and the optional details, so does the one built by
    [createErrorResponse]. *)
Theorem constructors_pass_isApiResponse :
  (forall data message, isApiResponse (createSuccessResponse data message) = Ok true)
  /\ (forall code message details,
        isApiResponse (createErrorResponse code message details) = Ok true).
Proof.
  split.
  - intros data [m|]; unfold createSuccessResponse, and_value; cbn [of_optional_string truthy].
    + destruct (String.eqb m ""); reflexivity.
    + reflexivity.
  - intros code message [fs|]; reflexivity.
Qed.

(** ** Enumeration guards *)

Lemma includes_string_iff (lits : list string) (s : string) :
  includes lits (VString s) = true <-> In s lits.
Proof.
  unfold includes. rewrite existsb_exists. split.
  - intros (l & Hin & Heq). cbn in Heq. apply String.eqb_eq in Heq. now subst.
  - intros Hin. exists s. split; [assumption|]. cbn. apply String.eqb_refl.
Qed.

Lemma includes_not_string (lits : list string) (v : js_value) :
  js_type_eqb (typeof v) TString = false -> includes lits v = false.
Proof.
  intros H. unfold includes. induction lits as [|l lits IH]; [reflexivity|].
  cbn [existsb]. rewrite IH, orb_false_r. destruct v; try reflexivity. discriminate H.
Qed.

Lemma ret_true_iff (b : bool) : ret b = Ok true <-> b = true.
Proof. unfold ret. split; [ now intros [= ->] | now intros -> ]. Qed.

(** C3.  In queue.types.ts as it now stands (the revision with the
    [filtered] status and the [scrape] item type) the two helpers accept
    exactly the closed enumerations of the specification: six statuses
    (pending, processing, success, failed, skipped, filtered) and three
    item types (job, company, scrape). *)
Theorem queue_enum_guards_spec :
  (forall s, QueueTypesRevised.isQueueStatus (VString s) = Ok true
             <-> In s ["pending"; "processing"; "success"; "failed"; "skipped"; "filtered"])
  /\ (forall t, QueueTypesRevised.isQueueItemType (VString t) = Ok true
                <-> In t ["job"; "company"; "scrape"]).
Proof.
  split; intros s;
    unfold QueueTypesRevised.isQueueStatus, QueueTypesRevised.isQueueItemType;
    rewrite ret_true_iff; apply includes_string_iff.
Qed.

Lemma queue_enum_guards_spec_witness :
  QueueTypesRevised.isQueueStatus (VString "filtered") = Ok true
  /\ QueueTypesRevised.isQueueItemType (VString "scrape") = Ok true.
Proof.
  split.
  - apply (proj1 queue_enum_guards_spec "filtered"). simpl. tauto.
  - apply (proj2 queue_enum_guards_spec "scrape"). simpl. tauto.
Defined.

(** Each helper accepts exactly the literals of the union declared
    beside it. *)
Lemma revised_queue_enum_guards_match_declarations (s : string) :
  (QueueTypesRevised.isQueueStatus (VString s) = Ok true
   <-> exists q, s = QueueTypesRevised.QueueStatus_literal q)
  /\ (QueueTypesRevised.isQueueItemType (VString s) = Ok true
      <-> exists t, s = QueueTypesRevised.QueueItemType_literal t).
Proof.
  unfold QueueTypesRevised.isQueueStatus, QueueTypesRevised.isQueueItemType.
  rewrite !ret_true_iff, !includes_string_iff.
  split; split.
  - simpl. intros [<-|[<-|[<-|[<-|[<-|[<-|[]]]]]]];
      [ now exists QueueTypesRevised.pending | now exists QueueTypesRevised.processing
      | now exists QueueTypesRevised.success | now exists QueueTypesRevised.failed
      | now exists QueueTypesRevised.skipped | now exists QueueTypesRevised.filtered ].
  - intros [q ->]. destruct q; simpl; tauto.
  - simpl. intros [<-|[<-|[<-|[]]]];
      [ now exists QueueTypesRevised.job | now exists QueueTypesRevised.company
      | now exists QueueTypesRevised.scrape ].
  - intros [t ->]. destruct t; simpl; tauto.
Qed.

(** The earlier revision of the file, which the type-guard module was
    written against, has five statuses and two item types: its helpers
    reject [filtered] and [scrape]. *)
Lemma earlier_queue_enum_guards :
  (forall s, isQueueStatus (VString s) = Ok true
             <-> In s ["pending"; "processing"; "success"; "failed"; "skipped"])
  /\ (forall t, isQueueItemType (VString t) = Ok true <-> In t ["job"; "company"])
  /\ isQueueStatus (VString "filtered") = Ok false
  /\ isQueueItemType (VString "scrape") = Ok false.
Proof.
  split; [ | split; [ | split; reflexivity ] ]; intros s;
    unfold isQueueStatus, isQueueItemType;
    rewrite ret_true_iff; apply includes_string_iff.
Qed.

(** Each helper of the earlier revision accepts exactly the literals of
    the union declared beside it. *)
Lemma queue_enum_guards_match_declarations (s : string) :
  (isQueueStatus (VString s) = Ok true <-> exists q, s = QueueStatus_literal q)
  /\ (isQueueItemType (VString s) = Ok true <-> exists t, s = QueueItemType_literal t).
Proof.
  unfold isQueueStatus, isQueueItemType. rewrite !ret_true_iff, !includes_string_iff.
  split; split.
  - simpl. intros [<-|[<-|[<-|[<-|[<-|[]]]]]];
      [ now exists pending | now exists processing | now exists success
      | now exists failed | now exists skipped ].
  - intros [q ->]. destruct q; simpl; tauto.
  - simpl. intros [<-|[<-|[]]]; [ now exists job | now exists company ].
  - intros [t ->]. destruct t; simpl; tauto.
Qed.

Lemma in_QueueSource_iff (s : string) :
  in_QueueSource s = true <-> exists q : QueueSource, s = QueueSource_literal q.
Proof.
  unfold in_QueueSource. rewrite existsb_exists. split.
  - intros (q & _ & H). apply String.eqb_eq in H. now exists q.
  - intros (q & ->). exists q. split; [ destruct q; simpl; tauto | apply String.eqb_refl ].
Qed.

Lemma isQueueSource_iff (v : js_value) :
  isQueueSource v = Ok true
  <-> exists s, v = VString s
                /\ (in_QueueSource s = true \/ s = "manual_submission" \/ s = "user_request").
Proof.
  unfold isQueueSource. rewrite js_and_true_iff, !ret_true_iff, typeof_string_inv.
  split.
  - intros ((s & ->) & H). exists s. split; [reflexivity|].
    apply includes_string_iff in H. simpl in H.
    destruct H as [<-|[<-|[<-|[<-|[<-|[<-|[<-|[]]]]]]]]; auto.
  - intros (s & -> & H). split; [now exists s|].
    apply includes_string_iff.
    destruct H as [H|[->| ->]]; [|simpl; tauto..].
    apply in_QueueSource_iff in H as (q & ->). destruct q; simpl; tauto.
Qed.

(** C4.  [isQueueSource] is not in sync with the declared [QueueSource]
    union: it also accepts "manual_submission" and "user_request", which
    the union does not contain. *)
Theorem isQueueSource_accepts_undeclared :
  isQueueSource (VString "manual_submission") = Ok true
  /\ in_QueueSource "manual_submission" = false
  /\ isQueueSource (VString "user_request") = Ok true
  /\ in_QueueSource "user_request" = false.
Proof. repeat split; reflexivity. Qed.

(** ** Normal completion *)

Lemma returns_js_and_dep (a b : result bool) :
  returns a -> (a = Ok true -> returns b) -> returns (a &&& b).
Proof.
  intros [x ->] Hb. unfold js_and. cbn. destruct x; [now apply Hb | apply returns_ret].
Qed.

Lemma returns_bind_dep {A B : Type} (m : result A) (k : A -> result B) :
  returns m -> (forall a, m = Ok a -> returns (k a)) -> returns (m >>= k).
Proof. intros [a ->] H. now apply H. Qed.

Lemma js_and_false_l (b : result bool) : Ok false &&& b = Ok false.
Proof. reflexivity. Qed.

Lemma isObject_total (v : js_value) : returns (isObject v).
Proof. destruct v; eexists; reflexivity. Qed.

(** What passes [isObject]: a plain object, and an object of any other
    class than [Array]. *)
Lemma isObject_true_inv (v : js_value) :
  isObject v = Ok true ->
  (exists fs, v = VObject fs) \/ (exists tv props, v = VDate tv props)
  \/ (exists props, v = VDateProto props).
Proof.
  destruct v; try discriminate; intros _;
    [ right; left | right; right | left ]; repeat eexists.
Qed.

Lemma returns_get (v : js_value) (k : string) : isObject v = Ok true -> returns v.[k].
Proof. destruct v; try discriminate; intros _; eexists; reflexivity. Qed.

(** *** Arrays that keep their methods *)

Lemma arrays_keep_lookup (m k : string) (fs : list (string * js_value)) (x : js_value) :
  forallb (fun kv => arrays_keep m (snd kv)) fs = true ->
  lookup k fs = Some x -> arrays_keep m x = true.
Proof.
  induction fs as [|[k' y] fs IH]; cbn [forallb lookup snd]; [ discriminate | ].
  intros H. apply andb_true_iff in H as [Hy Hr].
  destruct (String.eqb k k'); [ intros [= <-]; exact Hy | now apply IH ].
Qed.

Lemma arrays_keep_array (m : string) (items : list js_value)
  (props : list (string * js_value)) :
  arrays_keep m (VArray items props) = true ->
  lookup m props = None
  /\ Forall (fun x => arrays_keep m x = true) items
  /\ forallb (fun kv => arrays_keep m (snd kv)) props = true.
Proof.
  cbn [arrays_keep]. intros H.
  apply andb_true_iff in H as [H Hp]. apply andb_true_iff in H as [Hm Hi].
  split; [ destruct (lookup m props); [ discriminate Hm | reflexivity ] | ].
  split; [ | exact Hp ].
  apply Forall_forall. rewrite forallb_forall in Hi. exact Hi.
Qed.

Lemma arrays_keep_or_undefined (m : string) (o : option js_value) :
  (forall x, o = Some x -> arrays_keep m x = true) ->
  arrays_keep m (or_undefined o) = true.
Proof. destruct o as [x|]; intros H; [ now apply H | reflexivity ]. Qed.

(** The arrays inside a property of [v] are arrays inside [v]. *)
Lemma arrays_keep_get (m : string) (v : js_value) (k : string) (x : js_value) :
  arrays_keep m v = true -> v.[k] = Ok x -> arrays_keep m x = true.
Proof.
  intros H E. destruct v; cbn [get] in E; try discriminate E; injection E as <-;
    try reflexivity; apply arrays_keep_or_undefined; intros x Hx.
  - unfold string_get in Hx. destruct (String.eqb k "length"); [ now injection Hx as <- | ].
    destruct (index_of_key k) as [i|]; [ | discriminate Hx ].
    destruct (String.get i s); [ now injection Hx as <- | discriminate Hx ].
  - now apply (arrays_keep_lookup m k props).
  - now apply (arrays_keep_lookup m k props).
  - now apply (arrays_keep_lookup m k props).
  - apply arrays_keep_array in H as (_ & Hi & Hp).
    unfold array_property, array_get in Hx.
    destruct (String.eqb k "length"); [ now injection Hx as <- | ].
    destruct (index_of_key k) as [i|].
    + destruct (nth_error items i) as [y|] eqn:En.
      * injection Hx as <-. rewrite Forall_forall in Hi. apply Hi.
        now apply (nth_error_In items i).
      * now apply (arrays_keep_lookup m k props).
    + now apply (arrays_keep_lookup m k props).
  - now apply (arrays_keep_lookup m k fields).
Qed.

Lemma every_total (cb : js_value -> result bool) (items : list js_value) :
  Forall (fun x => returns (cb x)) items -> returns (every cb items).
Proof.
  induction 1 as [|x items [[] Hx] _ IH]; cbn [every]; rewrite ?Hx; cbn [bind].
  - apply returns_ret.
  - exact IH.
  - apply returns_ret.
Qed.

(** [v.every(cb)] on an array that keeps the method. *)
Lemma call_every_total (cb : js_value -> result bool) (v : js_value) :
  isArray v = true -> arrays_keep "every" v = true ->
  (forall x, arrays_keep "every" x = true -> returns (cb x)) ->
  returns (call_every v cb).
Proof.
  destruct v; try discriminate. intros _ H Hcb.
  apply arrays_keep_array in H as (Hm & Hi & _).
  unfold call_every, call_method. rewrite Hm.
  apply every_total. eapply Forall_impl; [ | exact Hi ]. exact Hcb.
Qed.

Lemma isStringArray_total (v : js_value) :
  arrays_keep "every" v = true -> returns (isStringArray v).
Proof.
  intros H. unfold isStringArray.
  apply returns_js_and_dep; [ apply returns_ret | intros Ha ].
  apply ret_true_iff in Ha.
  apply call_every_total; [ exact Ha | exact H | intros x _; apply returns_ret ].
Qed.

(** [Array.isArray(o.k) && o.k.every(cb)], the property read twice. *)
Lemma returns_every_after_isArray (o : js_value) (k : string)
  (cb : js_value -> result bool) :
  arrays_keep "every" o = true ->
  (forall x, arrays_keep "every" x = true -> returns (cb x)) ->
  (v <- o.[k] ;; ret (isArray v)) = Ok true ->
  returns (v <- o.[k] ;; call_every v cb).
Proof.
  intros Hk Hcb H. destruct (o.[k]) as [v|] eqn:E; [|discriminate H].
  cbn [bind] in *. apply ret_true_iff in H.
  apply call_every_total; [ exact H | now apply (arrays_keep_get _ o k) | exact Hcb ].
Qed.

Lemma isDateLike_total (v : js_value) : returns (isDateLike v).
Proof.
  unfold isDateLike. destruct (instanceof_Date v); [apply returns_ret|].
  apply returns_guarded; [apply isObject_total|]. intros H.
  repeat apply returns_js_and; apply returns_typeof_is; now apply returns_get.
Qed.

Lemma isQueueStatus_total (v : js_value) : returns (isQueueStatus v).
Proof. apply returns_ret. Qed.

Lemma isQueueItemType_total (v : js_value) : returns (isQueueItemType v).
Proof. apply returns_ret. Qed.

Lemma isQueueSource_total (v : js_value) : returns (isQueueSource v).
Proof. unfold isQueueSource. apply returns_js_and; apply returns_ret. Qed.

Lemma isAIProvider_total (v : js_value) : returns (isAIProvider v).
Proof. unfold isAIProvider. apply returns_js_and; apply returns_ret. Qed.

Lemma isContentItemType_total (v : js_value) : returns (isContentItemType v).
Proof. unfold isContentItemType. apply returns_js_and; apply returns_ret. Qed.

Lemma isContentItemVisibility_total (v : js_value) : returns (isContentItemVisibility v).
Proof. unfold isContentItemVisibility. apply returns_js_and; apply returns_ret. Qed.

Create HintDb total.
#[local] Hint Resolve returns_ret returns_typeof_is returns_equals returns_get
  isStringArray_total arrays_keep_get
  isDateLike_total isQueueStatus_total isQueueItemType_total
  isQueueSource_total isAIProvider_total isContentItemType_total isObject_total : total.

(** Splits a conjunction, disjunction or call of guards into its operands
    and closes the operands that only read properties of an object, or
    pass one to a guard that completes. *)
Ltac total_body :=
  repeat lazymatch goal with
    | |- returns (js_and _ _) => apply returns_js_and
    | |- returns (js_or _ _) => apply returns_js_or
    | |- returns (bind _ _) => apply returns_bind_dep; [ | intros ? ? ]
    end;
  eauto with total.

(** A record guard: [if (!isObject(value)) return false] then a body. *)
Ltac record_total :=
  intros; apply returns_guarded; [ apply isObject_total | intros ?; total_body ].

Lemma isQueueItem_total (v : js_value) : returns (isQueueItem v).
Proof. unfold isQueueItem. record_total. Qed.

Lemma isStopList_total (v : js_value) :
  arrays_keep "every" v = true -> returns (isStopList v).
Proof. unfold isStopList. record_total. Qed.

Lemma isQueueSettings_total (v : js_value) : returns (isQueueSettings v).
Proof. unfold isQueueSettings. record_total. Qed.

Lemma isAISettings_total (v : js_value) : returns (isAISettings v).
Proof. unfold isAISettings. record_total. Qed.

Lemma isExperienceHighlight_total (v : js_value) :
  arrays_keep "every" v = true -> returns (isExperienceHighlight v).
Proof. unfold isExperienceHighlight. record_total. Qed.

Lemma isProjectRecommendation_total (v : js_value) :
  arrays_keep "every" v = true -> returns (isProjectRecommendation v).
Proof. unfold isProjectRecommendation. record_total. Qed.

Lemma isGapMitigation_total (v : js_value) : returns (isGapMitigation v).
Proof. unfold isGapMitigation. record_total. Qed.

Lemma isJobListing_total (v : js_value) : returns (isJobListing v).
Proof. unfold isJobListing. record_total. Qed.

Lemma isJobMatch_total (v : js_value) :
  arrays_keep "every" v = true -> returns (isJobMatch v).
Proof. unfold isJobMatch. record_total. Qed.

Lemma isCompany_total (v : js_value) : returns (isCompany v).
Proof. unfold isCompany. record_total. Qed.

Lemma isResumeIntakeData_total (v : js_value) :
  arrays_keep "every" v = true -> returns (isResumeIntakeData v).
Proof.
  intros Hk. unfold isResumeIntakeData.
  apply returns_guarded; [ apply isObject_total | intros Hobj ].
  repeat (apply returns_js_and_dep; [ | intros Hpre ]).
  all: try (auto with total; fail).
  all: try (apply returns_bind_dep; [ auto with total | intros ? ?; eauto with total ]; fail).
  all: apply js_and_true_iff in Hpre as [_ Harr];
    apply returns_every_after_isArray;
    [ exact Hk
    | first [ exact isExperienceHighlight_total | exact isProjectRecommendation_total ]
    | exact Harr ].
Qed.

Lemma hasBaseContentItemFields_total (v : js_value) :
  isObject v = Ok true -> returns (hasBaseContentItemFields v).
Proof. intros H. unfold hasBaseContentItemFields. total_body. Qed.

(** A content item guard: the object test, the base fields, then a body. *)
Ltac variant_total :=
  intros; apply returns_guarded; [ apply isObject_total | intros ? ];
  apply returns_guarded; [ now apply hasBaseContentItemFields_total | intros ? ];
  total_body.

Lemma isCompanyItem_total (v : js_value) : returns (isCompanyItem v).
Proof. unfold isCompanyItem. variant_total. Qed.

Lemma isProjectItem_total (v : js_value) : returns (isProjectItem v).
Proof. unfold isProjectItem. variant_total. Qed.

Lemma isSkillGroupItem_total (v : js_value) :
  arrays_keep "every" v = true -> returns (isSkillGroupItem v).
Proof. unfold isSkillGroupItem. variant_total. Qed.

Lemma isEducationItem_total (v : js_value) : returns (isEducationItem v).
Proof. unfold isEducationItem. variant_total. Qed.

Lemma isProfileSectionItem_total (v : js_value) : returns (isProfileSectionItem v).
Proof. unfold isProfileSectionItem. variant_total. Qed.

Lemma isAccomplishmentItem_total (v : js_value) : returns (isAccomplishmentItem v).
Proof. unfold isAccomplishmentItem. variant_total. Qed.


Lemma isContentItem_total (v : js_value) :
  arrays_keep "every" v = true -> returns (isContentItem v).
Proof.
  intros H. unfold isContentItem.
  repeat apply returns_js_or;
    auto using isCompanyItem_total, isProjectItem_total, isSkillGroupItem_total,
      isEducationItem_total, isProfileSectionItem_total, isAccomplishmentItem_total.
Qed.

Lemma isApiResponse_total (v : js_value) : returns (isApiResponse v).
Proof.
  destruct (js_type_eqb (typeof v) TObject) eqn:Hty;
    [ | rewrite isApiResponse_not_object by exact Hty; apply returns_ret ].
  destruct (truthy v) eqn:Ht;
    [ | unfold isApiResponse; rewrite Ht; apply returns_ret ].
  rewrite (isApiResponse_props v Ht Hty).
  destruct (property v "success") as [[| |[]| | | | | | | | |]|]; try apply returns_ret.
  destruct (property v "error") as [e|]; [|apply returns_ret].
  destruct (truthy e) eqn:Hte; [|apply returns_ret].
  destruct (js_type_eqb (typeof e) TObject) eqn:Htye; [|apply returns_ret].
  cbn [andb].
  assert (forall k, returns e.[k]) as Hget
    by (intros k; destruct e; try discriminate; eexists; reflexivity).
  apply returns_js_and; apply returns_typeof_is; apply Hget.
Qed.

(** [isDate] on a value that does not inherit from [Date.prototype], and
    on a [Date] that keeps its [getTime]. *)
Lemma isDate_not_instance (v : js_value) :
  instanceof_Date v = false -> isDate v = Ok false.
Proof. intros H. unfold isDate. rewrite H. reflexivity. Qed.

Lemma isDate_Date (tv : option Z) (props : list (string * js_value)) :
  lookup "getTime" props = None -> isDate (VDate tv props) = Ok (is_some tv).
Proof.
  intros H. unfold isDate, getTime, call_method. rewrite H. destruct tv; reflexivity.
Qed.

Lemma isISODateString_total (hostParse : string -> option Z) (v : js_value) :
  returns (isISODateString hostParse v).
Proof.
  destruct v; try apply returns_ret.
  unfold isISODateString, new_Date.
  destruct (EcmaDate.time_value_of_string hostParse s) as [t|]; cbn.
  - apply returns_ret.
  - apply returns_ret.
Qed.

Lemma isNonEmptyString_total (v : js_value) : returns (isNonEmptyString v).
Proof. destruct v; eexists; reflexivity. Qed.

Lemma isNonEmptyArray_total (v : js_value) : returns (isNonEmptyArray v).
Proof. destruct v; apply returns_ret. Qed.

Lemma isValidUrl_total (v : js_value) : returns (isValidUrl v).
Proof. destruct v; eexists; reflexivity. Qed.

Lemma isValidEmail_total (v : js_value) : returns (isValidEmail v).
Proof. destruct v; apply returns_ret. Qed.

Lemma record_guard_non_object (body : result bool) (v : js_value) :
  isObject v = Ok false ->
  (o <- isObject v ;; if negb o then ret false else body) = Ok false.
Proof. intros ->. reflexivity. Qed.

Lemma isApiResponse_primitive (v : js_value) :
  typeof v <> TObject \/ v = VNull -> isApiResponse v = Ok false.
Proof.
  intros [H| ->]; [ | reflexivity ].
  apply isApiResponse_not_object.
  destruct (typeof v); try reflexivity. now elim H.
Qed.

Lemma isContentItem_non_object (v : js_value) :
  isObject v = Ok false -> isContentItem v = Ok false.
Proof.
  intros H. unfold isContentItem.
  repeat (apply js_or_false_iff; split); now apply record_guard_non_object.
Qed.

(** C8 (as the code has it).  The exported guards that call no method of
    their input terminate with a boolean on every input and never raise;
    those that call [every] on an array they find in it do so on every
    input whose arrays keep the method they inherit; [isDate] answers
    false on every value that does not inherit from [Date.prototype],
    completes on every [Date] that keeps its [getTime], and raises on an
    object that inherits from [Date.prototype] without being a [Date].
    Every guard that starts with the [isObject] test answers false on
    null, undefined, a primitive, a function and an array, and
    [isApiResponse] on null and on whatever is not an object, while an
    array that carries the properties of an envelope passes it.  The
    narrowing helpers [isApiSuccess], [isApiError] and [hasErrorCode],
    whose parameter is typed as an envelope, complete on every value
    [isApiResponse] accepts, and raise on null and undefined. *)
Theorem guards_total :
  (forall hostParse g, In g (guards_without_calls hostParse) -> forall v, returns (g v))
  /\ (forall g, In g guards_calling_every ->
        forall v, arrays_keep "every" v = true -> returns (g v))
  /\ (forall v, instanceof_Date v = false -> isDate v = Ok false)
  /\ (forall tv props, lookup "getTime" props = None -> returns (isDate (VDate tv props)))
  /\ (forall props, lookup "getTime" props = None ->
        isDate (VDateProto props) = Throw TypeError)
  /\ (forall g, In g isObject_guards ->
        forall v, isObject v = Ok false -> g v = Ok false)
  /\ (forall v, typeof v <> TObject \/ v = VNull -> isApiResponse v = Ok false)
  /\ isApiResponse
       (VArray [] [("success", VBool true); ("data", VNumber (number_of_nat 1))])
     = Ok true
  /\ (forall r, isApiResponse r = Ok true ->
        returns (isApiSuccess r) /\ returns (isApiError r)
        /\ (isApiError r = Ok true -> forall code, returns (hasErrorCode r code)))
  /\ (forall r, r = VNull \/ r = VUndefined ->
        isApiSuccess r = Throw TypeError /\ isApiError r = Throw TypeError).
Proof.
  repeat apply conj.
  - intros hostParse g Hin v. unfold guards_without_calls in Hin.
    repeat (destruct Hin as [<-|Hin];
            [ auto using isApiResponse_total, isISODateString_total,
                isNonEmptyString_total, isNonEmptyArray_total, isValidUrl_total,
                isValidEmail_total, isQueueStatus_total, isQueueItemType_total,
                isQueueSource_total, isQueueItem_total,
                isQueueSettings_total, isAIProvider_total, isAISettings_total,
                isGapMitigation_total, isJobListing_total,
                isCompany_total, isContentItemType_total,
                isContentItemVisibility_total, isCompanyItem_total, isProjectItem_total,
                isEducationItem_total,
                isProfileSectionItem_total, isAccomplishmentItem_total; fail | ]).
    destruct Hin.
  - intros g Hin v Hk. unfold guards_calling_every in Hin.
    repeat (destruct Hin as [<-|Hin];
            [ auto using isStopList_total, isExperienceHighlight_total,
                isProjectRecommendation_total, isResumeIntakeData_total,
                isJobMatch_total, isSkillGroupItem_total, isContentItem_total; fail | ]).
    destruct Hin.
  - exact isDate_not_instance.
  - intros tv props H. rewrite (isDate_Date tv props H). apply returns_ret.
  - intros props H. unfold isDate, getTime, call_method. rewrite H. reflexivity.
  - intros g Hin v H. unfold isObject_guards in Hin.
    repeat (destruct Hin as [<-|Hin];
            [ first [ now apply isContentItem_non_object
                    | now apply record_guard_non_object ] | ]).
    destruct Hin.
  - exact isApiResponse_primitive.
  - reflexivity.
  - intros r H. apply isApiResponse_iff in H as (_ & _ & b & Hs & H).
    unfold isApiSuccess, isApiError, hasErrorCode. rewrite Hs.
    split; [apply returns_ret|]. split; [apply returns_ret|].
    intros Hb code. destruct b; [discriminate Hb|].
    destruct H as (e & -> & Hty & Hn & (c & Hc) & _).
    cbn [bind]. rewrite Hc. apply returns_ret.
  - intros r [-> | ->]; split; reflexivity.
Qed.

Lemma guards_total_witness :
  returns (isQueueItem (VArray [VNull] []))
  /\ returns (isJobMatch (VObject [("matchedSkills", VArray [VNull] [])]))
  /\ isDate (VString "2024-01-01") = Ok false
  /\ returns (isDate (VDate None []))
  /\ isDate (VDateProto [("label", VNull)]) = Throw TypeError
  /\ isJobMatch (VString "match") = Ok false
  /\ isApiResponse VNull = Ok false
  /\ returns (hasErrorCode (createErrorResponse "NOT_FOUND" "missing" None) "NOT_FOUND")
  /\ isApiError VUndefined = Throw TypeError.
Proof.
  pose proof guards_total as (H1 & H2 & H3 & H4 & H5 & H6 & H7 & _ & H9 & H10).
  repeat apply conj.
  - apply (H1 (fun _ => None) isQueueItem). simpl. tauto.
  - apply (H2 isJobMatch); [ simpl; tauto | reflexivity ].
  - apply H3. reflexivity.
  - apply H4. reflexivity.
  - apply H5. reflexivity.
  - apply (H6 isJobMatch); [ simpl; tauto | reflexivity ].
  - apply H7. right. reflexivity.
  - apply (H9 (createErrorResponse "NOT_FOUND" "missing" None)); reflexivity.
  - apply (H10 VUndefined). right. reflexivity.
Defined.

(** C8 (as the specification has it) fails: the exported guards
    [isApiSuccess] and [isApiError] raise on [null] and [undefined]. *)
Lemma narrowing_guards_raise :
  isApiSuccess VNull = Throw TypeError /\ isApiError VUndefined = Throw TypeError.
Proof. split; reflexivity. Qed.

(** Three more ways to make a guard raise: an object that inherits from
    [Date.prototype] without being a [Date], a [Date] and an array whose
    method is shadowed by a property that is not a function. *)
Lemma guards_raise_on_shadowed_methods :
  isDate (VDateProto []) = Throw TypeError
  /\ isDate (VDate (Some 0%Z) [("getTime", VNull)]) = Throw TypeError
  /\ isStopList
       (VObject [("excludedCompanies", VArray [] [("every", VNull)])])
     = Throw TypeError.
Proof. repeat split; reflexivity. Qed.

(** [isApiResponse] has no test for arrays: an array that carries the
    properties of an envelope passes. *)
Lemma isApiResponse_accepts_array :
  isApiResponse (VArray [] [("success", VBool true); ("data", VNumber (number_of_nat 1))])
  = Ok true.
Proof. reflexivity. Qed.

(** ** Content item variants *)


Lemma discriminator_inj (A B : ContentItemVariant) :
  discriminator A = discriminator B -> A = B.
Proof. destruct A, B; intros H; try reflexivity; discriminate H. Qed.

(** What a variant guard establishes, and all it asks for. *)
Lemma variant_guard_true_iff (A : ContentItemVariant) (v : js_value) :
  variant_guard A v = Ok true
  <-> isObject v = Ok true
      /\ hasBaseContentItemFields v = Ok true
      /\ v.["type"] = Ok (VString (discriminator A))
      /\ variant_fields A v = Ok true.
Proof.
  destruct A; cbn [variant_guard discriminator variant_fields];
    unfold isCompanyItem, isProjectItem, isSkillGroupItem, isEducationItem,
      isProfileSectionItem, isAccomplishmentItem;
    rewrite !guarded_true_iff, !js_and_true_iff, equals_string_true; tauto.
Qed.


Lemma equals_string_false (v : js_value) (k s : string) :
  isObject v = Ok true -> v.[k] <> Ok (VString s) -> equals v.[k] (LString s) = Ok false.
Proof.
  intros Ho H.
  destruct (returns_equals _ (LString s) (returns_get v k Ho)) as [[] E]; [ | exact E ].
  apply equals_string_true in E. contradiction.
Qed.

(** A variant guard compares [type] before it looks at the fields of its
    variant. *)
Lemma variant_guard_wrong_type (A : ContentItemVariant) (v : js_value) :
  v.["type"] <> Ok (VString (discriminator A)) -> variant_guard A v = Ok false.
Proof.
  intros H. destruct (isObject v) as [[]|] eqn:Ho.
  - destruct (hasBaseContentItemFields_total v Ho) as [[] Hb].
    + pose proof (equals_string_false v "type" _ Ho H) as E.
      destruct A; cbn [variant_guard discriminator] in *;
        unfold isCompanyItem, isProjectItem, isSkillGroupItem, isEducationItem,
          isProfileSectionItem, isAccomplishmentItem;
        rewrite Ho, Hb; cbn [bind negb]; rewrite E; reflexivity.
    + destruct A; cbn [variant_guard];
        unfold isCompanyItem, isProjectItem, isSkillGroupItem, isEducationItem,
          isProfileSectionItem, isAccomplishmentItem;
        rewrite Ho, Hb; reflexivity.
  - destruct A; now apply record_guard_non_object.
  - destruct (isObject_total v) as [b Hb]. congruence.
Qed.


(** C5.  No value satisfies two variant guards: when the guard of one
    variant accepts a value, the guard of any other variant rejects it. *)
Theorem variant_guards_exclusive (A B : ContentItemVariant) (v : js_value) :
  A <> B -> variant_guard A v = Ok true -> variant_guard B v = Ok false.
Proof.
  intros Hne HA. apply variant_guard_wrong_type. intros HB.
  apply variant_guard_true_iff in HA as (_ & _ & HA & _).
  rewrite HA in HB. injection HB as HB. apply discriminator_inj in HB. contradiction.
Qed.

Lemma variant_guards_exclusive_witness :
  isCompanyItem sample_company_item = Ok true
  /\ isProjectItem sample_company_item = Ok false.
Proof.
  split; [reflexivity|].
  apply (variant_guards_exclusive CompanyItem ProjectItem sample_company_item);
    [ discriminate | reflexivity ].
Defined.




(** ** Dates *)

Lemma lookup_obj_set_eq (k : string) (x : js_value) (fs : list (string * js_value)) :
  lookup k (obj_set k x fs) = Some x.
Proof.
  induction fs as [|[k' x'] fs IH]; cbn.
  - now rewrite String.eqb_refl.
  - destruct (String.eqb k k') eqn:E; cbn; rewrite ?String.eqb_refl, ?E; auto.
Qed.

Lemma lookup_obj_set_neq (k k' : string) (x : js_value) (fs : list (string * js_value)) :
  k <> k' -> lookup k' (obj_set k x fs) = lookup k' fs.
Proof.
  intros Hne. induction fs as [|[k0 x0] fs IH]; cbn.
  - apply String.eqb_neq in Hne. rewrite String.eqb_sym in Hne. now rewrite Hne.
  - destruct (String.eqb k k0) eqn:E; cbn.
    + apply String.eqb_eq in E. subst k0.
      apply String.eqb_neq in Hne. rewrite String.eqb_sym in Hne. now rewrite Hne.
    + now rewrite IH.
Qed.

Lemma get_obj_set_eq (k : string) (x : js_value) (fs : list (string * js_value)) :
  (VObject (obj_set k x fs)).[k] = Ok x.
Proof. cbn. now rewrite lookup_obj_set_eq. Qed.

Lemma get_obj_set_neq (k k' : string) (x : js_value) (fs : list (string * js_value)) :
  k <> k' -> (VObject (obj_set k x fs)).[k'] = (VObject fs).[k'].
Proof. intros H. cbn. now rewrite lookup_obj_set_neq. Qed.

(** Reads the properties of an object after one or more updates. *)
Ltac read_updates :=
  repeat first [ rewrite get_obj_set_eq | rewrite get_obj_set_neq by discriminate ].






(** ** Queue items *)

Lemma js_type_eqb_eq (a b : js_type) : js_type_eqb a b = true <-> a = b.
Proof. destruct a, b; cbn; split; congruence. Qed.

Lemma typeof_is_Ok (x : js_value) (t : js_type) :
  typeof_is (Ok x) t = Ok true <-> typeof x = t.
Proof. cbn. rewrite ret_true_iff. apply js_type_eqb_eq. Qed.

Lemma null_or_string_Ok (x : js_value) :
  equals (Ok x) LNull ||| typeof_is (Ok x) TString = Ok true
  <-> x = VNull \/ typeof x = TString.
Proof.
  destruct x; cbn; split; intros H; try discriminate H; auto.
  all: destruct H as [H|H]; discriminate H.
Qed.

Lemma includes_iff (lits : list string) (x : js_value) :
  includes lits x = true <-> exists s, x = VString s /\ In s lits.
Proof.
  split.
  - intros H. destruct (js_type_eqb (typeof x) TString) eqn:E.
    + apply typeof_string_inv in E as [s ->]. exists s. split; [reflexivity|].
      now apply includes_string_iff.
    + rewrite includes_not_string in H by assumption. discriminate H.
  - intros (s & -> & H). now apply includes_string_iff.
Qed.

Lemma isQueueItem_object_iff (fs : list (string * js_value)) :
  isQueueItem (VObject fs) = Ok true <-> QueueItem_required fs.
Proof.
  unfold isQueueItem, QueueItem_required.
  rewrite guarded_true_iff, !js_and_true_iff. cbn [get bind].
  rewrite !typeof_is_Ok, !null_or_string_Ok.
  unfold queueItemTypeGuard, queueStatusGuard, isQueueItemType, isQueueStatus.
  rewrite !ret_true_iff, !includes_iff.
  cbv zeta. intuition reflexivity.
Qed.

(** C10.  [isQueueItem] accepts every object whose eleven required fields
    check, whatever else the object carries, and its verdict does not
    change when one of the optional fields [id], [result_message],
    [error_details], [processed_at], [completed_at] is set to any value
    at all; a queue item whose optional fields all have wrong types is
    accepted. *)
Theorem isQueueItem_ignores_optional_fields :
  (forall fs, QueueItem_required fs -> isQueueItem (VObject fs) = Ok true)
  /\ (forall fs k x, In k QueueItem_optional ->
        isQueueItem (VObject (obj_set k x fs)) = isQueueItem (VObject fs))
  /\ isQueueItem
       (VObject
          (sample_queue_item sample_timestamp (VDate (Some 0%Z) [])
           ++ [("id", VNumber (number_of_nat 7)); ("result_message", VBool true);
               ("error_details", VObject [("stack", VArray [] [])]);
               ("processed_at", VNumber (number_of_nat 12));
               ("completed_at", VString "never")]))
     = Ok true.
Proof.
  split; [|split; [|reflexivity]].
  - intros fs H. now apply isQueueItem_object_iff.
  - intros fs k x Hin. unfold QueueItem_optional in Hin. unfold isQueueItem.
    replace (isObject (VObject (obj_set k x fs))) with (isObject (VObject fs))
      by reflexivity.
    repeat (destruct Hin as [<-|Hin]; [ read_updates; reflexivity | ]).
    destruct Hin.
Qed.

Lemma isQueueItem_ignores_optional_fields_witness :
  isQueueItem (VObject (sample_queue_item (VDate None []) sample_timestamp)) = Ok true
  /\ isQueueItem
       (VObject (obj_set "processed_at" (VNumber (number_of_nat 12))
                   (sample_queue_item (VDate None []) sample_timestamp)))
     = isQueueItem (VObject (sample_queue_item (VDate None []) sample_timestamp)).
Proof.
  split.
  - apply (proj1 isQueueItem_ignores_optional_fields).
    unfold QueueItem_required. cbn.
    repeat split; try reflexivity; try (left; reflexivity);
      eexists; (split; [ reflexivity | simpl; tauto ]).
  - apply (proj1 (proj2 isQueueItem_ignores_optional_fields)). simpl. tauto.
Defined.

(** ** Calendar arithmetic *)

Section Calendar.

Import EcmaDate.
Local Open Scope Z_scope.

Lemma DayFromYear_mean (y : Z) :
  146097 * (y - 1970) - 506 <= 400 * DayFromYear y <= 146097 * (y - 1970) + 589.
Proof. unfold DayFromYear. Z.div_mod_to_equations. lia. Qed.

(** [YearFromDay d] is the year the day [d] falls in. *)
Lemma YearFromDay_spec (d : Z) :
  DayFromYear (YearFromDay d) <= d < DayFromYear (YearFromDay d + 1).
Proof.
  unfold YearFromDay.
  set (y := 1970 + 400 * d / 146097).
  assert (Hy : 146097 * (y - 1970) <= 400 * d < 146097 * (y - 1970) + 146097).
  { subst y. pose proof (Z.div_mod (400 * d) 146097 ltac:(lia)).
    pose proof (Z.mod_pos_bound (400 * d) 146097 ltac:(lia)). lia. }
  clearbody y.
  pose proof (DayFromYear_mean (y - 1)).
  pose proof (DayFromYear_mean (y + 1 + 1)).
  destruct (d <? _) eqn:E1; [|destruct (_ <=? d) eqn:E2].
  all: rewrite ?Z.ltb_lt, ?Z.ltb_ge, ?Z.leb_le, ?Z.leb_gt in *.
  all: replace (y - 1 + 1) with y by lia; lia.
Qed.

Lemma DaysInYear_spec (y : Z) : DayFromYear (y + 1) - DayFromYear y = DaysInYear y.
Proof.
  unfold DaysInYear, is_leap, DayFromYear.
  destruct (y mod 4 =? 0) eqn:E4; cbn [negb];
    [ destruct (y mod 100 =? 0) eqn:E100; cbn [negb];
      [ destruct (y mod 400 =? 0) eqn:E400 | ] | ].
  all: rewrite ?Z.eqb_eq, ?Z.eqb_neq in *.
  all: Z.div_mod_to_equations; lia.
Qed.

Lemma DayWithinYear_bounds (t : Z) :
  0 <= DayWithinYear t < (if is_leap (YearFromTime t) then 366 else 365).
Proof.
  unfold DayWithinYear, YearFromTime.
  pose proof (YearFromDay_spec (Day t)) as H.
  pose proof (DaysInYear_spec (YearFromDay (Day t))) as H'.
  unfold DaysInYear in H'. destruct (is_leap _); lia.
Qed.

Lemma month_search_spec (leap : bool) (dwy : Z) :
  0 <= dwy < (if leap then 366 else 365) ->
  let m := month_search leap dwy 0 11 in
  0 <= m <= 11
  /\ days_before_month leap m <= dwy < days_before_month leap (m + 1).
Proof.
  intros H. cbv zeta. unfold month_search.
  repeat match goal with
         | |- context [ if ?c then _ else _ ] =>
             let E := fresh "E" in
             destruct c eqn:E; [ apply Z.ltb_lt in E | apply Z.ltb_ge in E ]
         end.
  all: destruct leap; cbn in *; lia.
Qed.

Lemma MonthFromTime_bounds (t : Z) : 0 <= MonthFromTime t <= 11.
Proof. apply (month_search_spec _ _ (DayWithinYear_bounds t)). Qed.

Lemma DateFromTime_bounds (t : Z) :
  1 <= DateFromTime t <= days_in_month (is_leap (YearFromTime t)) (MonthFromTime t).
Proof.
  pose proof (month_search_spec _ _ (DayWithinYear_bounds t)) as [_ H].
  unfold DateFromTime, days_in_month, MonthFromTime in *. lia.
Qed.

Lemma MakeDay_of_time (t : Z) :
  MakeDay (YearFromTime t) (MonthFromTime t) (DateFromTime t) = Day t.
Proof. unfold MakeDay, DateFromTime, DayWithinYear. lia. Qed.

Lemma MakeTime_of_time (t : Z) :
  MakeTime (HourFromTime t) (MinFromTime t) (SecFromTime t) (msFromTime t)
  = TimeWithinDay t.
Proof.
  unfold MakeTime, HourFromTime, MinFromTime, SecFromTime, msFromTime, TimeWithinDay,
    msPerDay, msPerHour, msPerMinute, msPerSecond.
  Z.div_mod_to_equations. lia.
Qed.

Lemma MakeDate_of_time (t : Z) : MakeDate (Day t) (TimeWithinDay t) = t.
Proof.
  unfold MakeDate, Day, TimeWithinDay, msPerDay.
  pose proof (Z.div_mod t 86400000 ltac:(lia)). lia.
Qed.

Lemma YearFromTime_bounds (t : Z) :
  Z.abs t <= max_time_value -> -271822 <= YearFromTime t <= 275760.
Proof.
  intros H. unfold max_time_value in H. unfold YearFromTime.
  pose proof (YearFromDay_spec (Day t)) as Hy.
  pose proof (DayFromYear_mean (YearFromDay (Day t))).
  pose proof (DayFromYear_mean (YearFromDay (Day t) + 1)).
  assert (-100000000 <= Day t <= 100000000)
    by (unfold Day, msPerDay; Z.div_mod_to_equations; lia).
  lia.
Qed.

End Calendar.

(** ** Printing and parsing date fields *)

Section DateFields.

Import EcmaDate.
Local Open Scope Z_scope.

Lemma digit_value_digit_char (d : Z) :
  0 <= d <= 9 -> digit_value (digit_char d) = Some d.
Proof.
  intros H.
  assert (d = 0 \/ d = 1 \/ d = 2 \/ d = 3 \/ d = 4 \/ d = 5 \/ d = 6 \/ d = 7
          \/ d = 8 \/ d = 9) as Hd by lia.
  repeat (destruct Hd as [->|Hd]; [reflexivity|]). subst d. reflexivity.
Qed.

Lemma pad_app (w : nat) (n : Z) (acc rest : string) :
  (pad w n acc ++ rest)%string = pad w n (acc ++ rest)%string.
Proof.
  revert n acc. induction w as [|w IH]; intros n acc; cbn [pad]; [reflexivity|].
  now rewrite IH.
Qed.

(** Reading back the [w1] digits [pad] wrote. *)
Lemma take_digits_pad (w1 w2 : nat) (n a : Z) (rest : string) :
  0 <= n < pow10 w1 ->
  take_digits (w1 + w2) a (pad w1 n rest) = take_digits w2 (a * pow10 w1 + n) rest.
Proof.
  revert w2 n rest. induction w1 as [|w1 IH]; intros w2 n rest H; cbn [pow10] in *.
  - cbn [pad Nat.add]. f_equal. lia.
  - cbn [pad]. replace (S w1 + w2)%nat with (w1 + S w2)%nat by lia.
    rewrite IH by (Z.div_mod_to_equations; lia).
    cbn [take_digits].
    rewrite digit_value_digit_char by (Z.div_mod_to_equations; lia).
    f_equal. Z.div_mod_to_equations. lia.
Qed.

Lemma take_digits_pad_all (w : nat) (n : Z) (rest : string) :
  0 <= n < pow10 w -> take_digits w 0 (pad w n rest) = Some (n, rest).
Proof.
  intros H. pose proof (take_digits_pad w 0 n 0 rest H) as E.
  rewrite Nat.add_0_r in E. rewrite E. reflexivity.
Qed.

Lemma parse_opt_field_pad (sep : ascii) (w : nat) (default n : Z) (rest : string) :
  0 <= n < pow10 w ->
  parse_opt_field sep w default (String sep (pad w n rest)) = Some (n, true, rest).
Proof.
  intros H. unfold parse_opt_field. rewrite Ascii.eqb_refl.
  now rewrite take_digits_pad_all.
Qed.

(** The head of a padded number is a digit, hence no sign. *)
Lemma parse_year_digits (n : Z) (rest : string) :
  0 <= n < pow10 4 -> parse_year (pad 4 n rest) = Some (n, rest).
Proof.
  intros H. rewrite <- (take_digits_pad_all 4 n rest H).
  cbn [pad]. set (d := n / 10 / 10 / 10 mod 10).
  assert (d = 0 \/ d = 1 \/ d = 2 \/ d = 3 \/ d = 4 \/ d = 5 \/ d = 6 \/ d = 7
          \/ d = 8 \/ d = 9) as Hd by (subst d; Z.div_mod_to_equations; lia).
  clearbody d.
  repeat (destruct Hd as [->|Hd]; [reflexivity|]). subst d. reflexivity.
Qed.

Lemma parse_year_year_string (y : Z) (rest : string) :
  -999999 <= y <= 999999 ->
  parse_year (year_string y ++ rest) = Some (y, rest).
Proof.
  intros H. unfold year_string.
  destruct ((0 <=? y) && (y <=? 9999)) eqn:E.
  - apply andb_true_iff in E as [E1 E2]. apply Z.leb_le in E1, E2.
    rewrite pad_app. cbn [append]. apply parse_year_digits. cbn. lia.
  - destruct (y <? 0) eqn:E'.
    + apply Z.ltb_lt in E'. cbn [append]. rewrite pad_app. cbn [append parse_year].
      rewrite take_digits_pad_all by (cbn; lia).
      destruct (- y) eqn:Ey; try lia. f_equal. f_equal. lia.
    + apply Z.ltb_ge in E'. cbn [append]. rewrite pad_app. cbn [append parse_year].
      apply take_digits_pad_all. cbn. lia.
Qed.

(** Parsing undoes serialization. *)
Lemma parse_iso_string (t : Z) :
  Z.abs t <= max_time_value -> parse_iso_utc (iso_string t) = Some t.
Proof.
  intros Ht. unfold iso_string.
  pose proof (YearFromTime_bounds t Ht) as HY.
  pose proof (MonthFromTime_bounds t) as HM.
  pose proof (DateFromTime_bounds t) as HD.
  pose proof (MakeDay_of_time t) as Eday.
  pose proof (MakeTime_of_time t) as Etime.
  assert (0 <= HourFromTime t <= 23 /\ 0 <= MinFromTime t <= 59
          /\ 0 <= SecFromTime t <= 59 /\ 0 <= msFromTime t <= 999) as (Hh & Hmi & Hs & Hms).
  { unfold HourFromTime, MinFromTime, SecFromTime, msFromTime, msPerSecond.
    repeat split; Z.div_mod_to_equations; lia. }
  assert (days_in_month (is_leap (YearFromTime t)) (MonthFromTime t) <= 31) as HD31.
  { unfold days_in_month.
    assert (MonthFromTime t = 0 \/ MonthFromTime t = 1 \/ MonthFromTime t = 2
            \/ MonthFromTime t = 3 \/ MonthFromTime t = 4 \/ MonthFromTime t = 5
            \/ MonthFromTime t = 6 \/ MonthFromTime t = 7 \/ MonthFromTime t = 8
            \/ MonthFromTime t = 9 \/ MonthFromTime t = 10 \/ MonthFromTime t = 11)
      as Hc by lia.
    destruct (is_leap _);
      repeat (destruct Hc as [->|Hc]; [cbn; lia|]); rewrite Hc; cbn; lia. }
  generalize dependent (msFromTime t). generalize dependent (SecFromTime t).
  generalize dependent (MinFromTime t). generalize dependent (HourFromTime t).
  generalize dependent (DateFromTime t). generalize dependent (MonthFromTime t).
  generalize dependent (YearFromTime t).
  intros Y HY M HM HD31 D HD Eday h Hh mi Hmi s Hs ms Etime Hms.
  rewrite !pad_app. cbn [append].
  unfold parse_iso_utc.
  rewrite parse_year_year_string by lia.
  rewrite parse_opt_field_pad by (unfold pow10; lia).
  rewrite parse_opt_field_pad by (unfold pow10; lia).
  replace (M + 1 - 1) with M by lia.
  assert (((1 <=? M + 1) && (M + 1 <=? 12) && (1 <=? D)
           && (D <=? days_in_month (is_leap Y) M))%bool = true) as ->.
  { rewrite !andb_true_iff, !Z.leb_le. lia. }
  cbn [parse_utc_time].
  rewrite take_digits_pad_all by (unfold pow10; lia).
  rewrite take_digits_pad_all by (unfold pow10; lia).
  rewrite parse_opt_field_pad by (unfold pow10; lia).
  rewrite parse_opt_field_pad by (unfold pow10; lia).
  assert (((h <=? 23) && (mi <=? 59) && (s <=? 59))%bool = true) as ->.
  { rewrite !andb_true_iff, !Z.leb_le. lia. }
  rewrite Eday, Etime. f_equal. apply MakeDate_of_time.
Qed.

End DateFields.

(** ** ISO date strings *)

Lemma isISODateString_iff (hostParse : string -> option Z) (v : js_value) :
  isISODateString hostParse v = Ok true
  <-> exists s t, v = VString s
                  /\ EcmaDate.time_value_of_string hostParse s = Some t
                  /\ EcmaDate.iso_string t = s.
Proof.
  split.
  - destruct v; try discriminate. unfold isISODateString, new_Date.
    destruct (EcmaDate.time_value_of_string hostParse s) as [t|] eqn:E; cbn;
      [|discriminate].
    intros H. injection H as H. apply String.eqb_eq in H.
    exists s, t. auto.
  - intros (s & t & -> & E & H). unfold isISODateString, new_Date. rewrite E. cbn.
    rewrite H. now rewrite String.eqb_refl.
Qed.

Lemma TimeClip_Some (x : option Z) (t : Z) :
  EcmaDate.TimeClip x = Some t <-> x = Some t /\ (Z.abs t <= max_time_value)%Z.
Proof.
  unfold EcmaDate.TimeClip, max_time_value. destruct x as [z|].
  - destruct (8640000000000000 <? Z.abs z)%Z eqn:E.
    + apply Z.ltb_lt in E. split; [discriminate|]. intros [[= ->] H]. lia.
    + apply Z.ltb_ge in E. split.
      * intros [= ->]. auto.
      * now intros [[= ->] _].
  - split; [discriminate | now intros [H _]].
Qed.

(** The accepted strings are the serializations of the valid time
    values, whatever the host's parser does elsewhere. *)
Lemma isISODateString_canonical (hostParse : string -> option Z) (v : js_value) :
  isISODateString hostParse v = Ok true
  <-> exists t, (Z.abs t <= max_time_value)%Z /\ v = VString (EcmaDate.iso_string t).
Proof.
  rewrite isISODateString_iff. split.
  - intros (s & t & -> & E & <-). exists t. split; [|reflexivity].
    unfold EcmaDate.time_value_of_string in E. now apply TimeClip_Some in E.
  - intros (t & Ht & ->). exists (EcmaDate.iso_string t), t.
    split; [reflexivity|]. split; [|reflexivity].
    unfold EcmaDate.time_value_of_string, EcmaDate.parse.
    rewrite parse_iso_string by assumption. now apply TimeClip_Some.
Qed.

(** C7.  [isISODateString] accepts exactly the strings that parse to a
    valid date whose ISO-8601 serialization is the string itself:
    "2024-01-01T00:00:00.000Z" is accepted, "2024-01-01" parses to a
    valid date and is rejected.  This holds whatever the host's parser
    makes of strings outside the host-independent part of the format, and
    the accepted strings are exactly the serializations of the valid time
    values. *)
Theorem isISODateString_spec (hostParse : string -> option Z) :
  (forall v, isISODateString hostParse v = Ok true
             <-> exists s t, v = VString s
                             /\ EcmaDate.time_value_of_string hostParse s = Some t
                             /\ EcmaDate.iso_string t = s)
  /\ isISODateString hostParse (VString "2024-01-01T00:00:00.000Z") = Ok true
  /\ EcmaDate.time_value_of_string hostParse "2024-01-01" = Some 1704067200000%Z
  /\ isISODateString hostParse (VString "2024-01-01") = Ok false
  /\ (forall v, isISODateString hostParse v = Ok true
                <-> exists t, (Z.abs t <= max_time_value)%Z
                              /\ v = VString (EcmaDate.iso_string t)).
Proof.
  split; [ apply isISODateString_iff | ].
  split; [ vm_compute; reflexivity | ].
  split; [ vm_compute; reflexivity | ].
  split; [ vm_compute; reflexivity | apply isISODateString_canonical ].
Qed.

Lemma isISODateString_spec_witness :
  isISODateString (fun _ => None) (VString "1999-12-31T23:59:59.999Z") = Ok true.
Proof.
  apply (proj1 (isISODateString_spec (fun _ => None))).
  exists "1999-12-31T23:59:59.999Z", 946684799999%Z.
  repeat split; vm_compute; reflexivity.
Defined.

(** ** Sample verdicts of the specification *)

Example isValidUrl_samples :
  isValidUrl (VString "https://example.com") = Ok true
  /\ isValidUrl (VString "ftp://example.com") = Ok false
  /\ isValidUrl (VString "not a url") = Ok false.
Proof. repeat split; reflexivity. Qed.

Example isValidEmail_samples :
  isValidEmail (VString "dev@example.com") = Ok true
  /\ isValidEmail (VString "dev@example") = Ok false
  /\ isValidEmail (VString "dev team@example.com") = Ok false.
Proof. repeat split; reflexivity. Qed.

Example array_guard_samples :
  isStringArray (VArray [] []) = Ok true /\ isNonEmptyArray (VArray [] []) = Ok false.
Proof. split; reflexivity. Qed.

Example isNonEmptyString_samples :
  isNonEmptyString (VString " a ") = Ok true
  /\ isNonEmptyString (VString "   ") = Ok false
  /\ isNonEmptyString VNull = Ok false.
Proof. repeat split; reflexivity. Qed.

Example isQueueItem_samples :
  isQueueItem (VObject (sample_queue_item (VDate (Some 0%Z) []) sample_timestamp)) = Ok true
  /\ isQueueItem
       (VObject (obj_set "status" (VString "archived")
                   (sample_queue_item (VDate (Some 0%Z) []) sample_timestamp)))
     = Ok false.
Proof. split; reflexivity. Qed.

(** * Further properties of the code *)

(** ** Narrowing and construction of envelopes *)

Lemma isApiSuccess_isApiError_cases (r : js_value) :
  isApiResponse r = Ok true ->
  (isApiSuccess r = Ok true /\ isApiError r = Ok false)
  \/ (isApiSuccess r = Ok false /\ isApiError r = Ok true).
Proof.
  intros H. apply isApiResponse_iff in H as (_ & _ & b & Hs & _).
  unfold isApiSuccess, isApiError. rewrite Hs. destruct b; [left | right]; split; reflexivity.
Qed.

(** X1.  On every value [isApiResponse] accepts, exactly one of
    [isApiSuccess] and [isApiError] answers true, and neither raises. *)
Theorem envelope_arms_partition (r : js_value) :
  isApiResponse r = Ok true ->
  exists b, isApiSuccess r = Ok b /\ isApiError r = Ok (negb b).
Proof.
  intros H. destruct (isApiSuccess_isApiError_cases r H) as [[-> ->]|[-> ->]];
    [ now exists true | now exists false ].
Qed.

Lemma envelope_arms_partition_witness :
  exists b, isApiSuccess (createErrorResponse "E" "m" None) = Ok b
            /\ isApiError (createErrorResponse "E" "m" None) = Ok (negb b).
Proof. apply envelope_arms_partition. reflexivity. Defined.

(** X2.  The constructors build the arm they are named after: a success
    envelope narrows with [isApiSuccess] and not with [isApiError], an
    error envelope the other way round. *)
Theorem constructors_select_arm :
  (forall data message,
      isApiSuccess (createSuccessResponse data message) = Ok true
      /\ isApiError (createSuccessResponse data message) = Ok false)
  /\ (forall code message details,
        isApiSuccess (createErrorResponse code message details) = Ok false
        /\ isApiError (createErrorResponse code message details) = Ok true).
Proof.
  split.
  - intros data [m|]; unfold createSuccessResponse, and_value;
      cbn [of_optional_string truthy]; [ destruct (String.eqb m "") | ]; split; reflexivity.
  - intros code message [fs|]; split; reflexivity.
Qed.

(** X3.  [hasErrorCode] on an envelope built by [createErrorResponse]
    answers whether the two codes are the same string, whatever the
    message and the details. *)
Theorem hasErrorCode_createErrorResponse (code message : string)
  (details : option (list (string * js_value))) (c : string) :
  hasErrorCode (createErrorResponse code message details) c = Ok (String.eqb code c).
Proof. destruct details; reflexivity. Qed.

(** X4.  [hasErrorCode] raises on every envelope built by
    [createSuccessResponse]: there is no [error] to read the code from. *)
Theorem hasErrorCode_createSuccessResponse (data : js_value) (message : option string)
  (c : string) :
  hasErrorCode (createSuccessResponse data message) c = Throw TypeError.
Proof.
  destruct message as [m|]; unfold createSuccessResponse, and_value;
    cbn [of_optional_string truthy]; [ destruct (String.eqb m "") | ]; reflexivity.
Qed.

(** X5.  A success envelope carries the payload unchanged under [data],
    also when the payload is [undefined]; it has a [message] key exactly
    when a non-empty message was supplied, and then the key holds that
    message: an empty message is dropped like an absent one. *)
Theorem createSuccessResponse_shape (data : js_value) (message : option string) :
  (createSuccessResponse data message).["data"] = Ok data
  /\ has_property "data" (createSuccessResponse data message) = Ok true
  /\ has_property "message" (createSuccessResponse data message)
     = Ok (match message with
           | Some m => negb (String.eqb m "")
           | None => false
           end)
  /\ (createSuccessResponse data message).["message"]
     = Ok (match message with
           | Some m => if String.eqb m "" then VUndefined else VString m
           | None => VUndefined
           end).
Proof.
  destruct message as [m|]; unfold createSuccessResponse, and_value;
    cbn [of_optional_string truthy].
  - destruct (String.eqb m ""); repeat split; reflexivity.
  - repeat split; reflexivity.
Qed.

(** X6.  An error envelope carries the code and the message unchanged,
    empty strings included; its [error] has a [details] key exactly when
    details were supplied (an empty record counts) and the key holds them;
    the envelope has no [data] key. *)
Theorem createErrorResponse_shape (code message : string)
  (details : option (list (string * js_value))) :
  exists error,
    (createErrorResponse code message details).["error"] = Ok error
    /\ error.["code"] = Ok (VString code)
    /\ error.["message"] = Ok (VString message)
    /\ has_property "details" error = Ok (is_some details)
    /\ error.["details"] = Ok (of_optional_record details)
    /\ has_property "data" (createErrorResponse code message details) = Ok false.
Proof.
  destruct details as [fs|]; eexists; repeat split; reflexivity.
Qed.

(** ** The regular expression matcher *)

Lemma append_nil_r (s : string) : (s ++ "")%string = s.
Proof. induction s as [|c s IH]; cbn; [reflexivity | now rewrite IH]. Qed.

Lemma append_assoc (a b c : string) : ((a ++ b) ++ c)%string = (a ++ (b ++ c))%string.
Proof. induction a as [|x a IH]; cbn; [reflexivity | now rewrite IH]. Qed.

Lemma append_eq_nil (a b : string) : (a ++ b)%string = "" -> a = "" /\ b = "".
Proof. destruct a; cbn; [ auto | discriminate ]. Qed.

Lemma append_eq_cons (a b : string) (c : ascii) (s : string) :
  (a ++ b)%string = String c s ->
  (a = "" /\ b = String c s) \/ (exists a', a = String c a' /\ s = (a' ++ b)%string).
Proof.
  destruct a as [|x a]; cbn; intros H; [ now left | right ].
  injection H as -> <-. now exists a.
Qed.

Lemma lang_Eps_inv (s : string) : matches_lang Regex.Eps s -> s = "".
Proof. intros H. now inversion H. Qed.

Lemma lang_Class_inv (p : ascii -> bool) (s : string) :
  matches_lang (Regex.Class p) s -> exists c, s = String c "" /\ p c = true.
Proof. intros H. inversion H; subst. eauto. Qed.

Lemma lang_Cat_inv (r1 r2 : Regex.t) (s : string) :
  matches_lang (Regex.Cat r1 r2) s ->
  exists s1 s2, s = (s1 ++ s2)%string /\ matches_lang r1 s1 /\ matches_lang r2 s2.
Proof. intros H. inversion H; subst. eauto. Qed.

Lemma lang_Alt_inv (r1 r2 : Regex.t) (s : string) :
  matches_lang (Regex.Alt r1 r2) s -> matches_lang r1 s \/ matches_lang r2 s.
Proof. intros H. inversion H; subst; auto. Qed.

Lemma nullable_lang (r : Regex.t) : Regex.nullable r = true <-> matches_lang r "".
Proof.
  split.
  - induction r; cbn; intros H; try discriminate.
    + constructor.
    + apply andb_true_iff in H as [H1 H2].
      change "" with ("" ++ "")%string. constructor; auto.
    + apply orb_true_iff in H as [H|H]; [ apply lang_alt_l | apply lang_alt_r ]; auto.
    + constructor.
  - intros H. remember "" as s eqn:E. induction H; cbn; try reflexivity.
    + discriminate E.
    + apply append_eq_nil in E as [-> ->]. rewrite IHmatches_lang1, IHmatches_lang2; auto.
    + rewrite IHmatches_lang; auto.
    + rewrite IHmatches_lang; auto using orb_true_r.
Qed.

Lemma deriv_lang (c : ascii) (r : Regex.t) (s : string) :
  matches_lang (Regex.deriv c r) s <-> matches_lang r (String c s).
Proof.
  split.
  - revert s. induction r; cbn; intros s H.
    + inversion H.
    + inversion H.
    + destruct (p c) eqn:E; inversion H; subst. now constructor.
    + destruct (Regex.nullable r1) eqn:N.
      * inversion H as [| | | ? ? ? H1 | ? ? ? H2 | |]; subst.
        -- inversion H1; subst.
           change (String c (s1 ++ s2)) with (String c s1 ++ s2)%string.
           constructor; auto.
        -- change (String c s) with ("" ++ String c s)%string.
           constructor; [ now apply nullable_lang | auto ].
      * inversion H; subst.
        change (String c (s1 ++ s2)) with (String c s1 ++ s2)%string.
        constructor; auto.
    + inversion H; subst; [ apply lang_alt_l | apply lang_alt_r ]; auto.
    + inversion H; subst.
      change (String c (s1 ++ s2)) with (String c s1 ++ s2)%string.
      constructor; auto.
  - intros H. remember (String c s) as w eqn:E. revert s E.
    induction H; intros x E; cbn.
    + discriminate E.
    + injection E as -> <-. rewrite H. constructor.
    + apply append_eq_cons in E as [[-> ->]|(a' & -> & ->)].
      * assert (Regex.nullable r1 = true) as -> by now apply nullable_lang.
        apply lang_alt_r. now apply IHmatches_lang2.
      * destruct (Regex.nullable r1);
          [ apply lang_alt_l | ]; constructor; auto.
    + apply lang_alt_l. auto.
    + apply lang_alt_r. auto.
    + discriminate E.
    + apply append_eq_cons in E as [[-> ->]|(a' & -> & ->)].
      * now apply IHmatches_lang2.
      * constructor; auto.
Qed.

(** The matcher decides membership in the language. *)
Lemma matches_lang_iff (r : Regex.t) (s : string) :
  Regex.matches r s = true <-> matches_lang r s.
Proof.
  revert r. induction s as [|c s IH]; intros r; cbn.
  - apply nullable_lang.
  - rewrite IH. apply deriv_lang.
Qed.

Lemma lang_Char (c : ascii) (s : string) :
  matches_lang (Regex.Char c) s <-> s = String c "".
Proof.
  unfold Regex.Char. split.
  - intros H. apply lang_Class_inv in H as (c' & -> & H).
    apply Ascii.eqb_eq in H. now subst.
  - intros ->. constructor. apply Ascii.eqb_refl.
Qed.

Lemma lang_Lit (p s : string) : matches_lang (Regex.Lit p) s <-> s = p.
Proof.
  revert s. induction p as [|c p IH]; intros s; cbn.
  - split; [ apply lang_Eps_inv | intros ->; constructor ].
  - split.
    + intros H. apply lang_Cat_inv in H as (s1 & s2 & -> & H1 & H2).
      apply lang_Char in H1. apply IH in H2. now subst.
    + intros ->. change (String c p) with (String c "" ++ p)%string.
      constructor; [ now apply lang_Char | now apply IH ].
Qed.

Lemma lang_Star_Class (p : ascii -> bool) (s : string) :
  matches_lang (Regex.Star (Regex.Class p)) s <-> all_chars p s = true.
Proof.
  split.
  - intros H. remember (Regex.Star (Regex.Class p)) as r eqn:E.
    induction H; try discriminate E; [ reflexivity | ].
    injection E as ->. apply lang_Class_inv in H as (c & -> & Hc).
    cbn. rewrite Hc. cbn. now apply IHmatches_lang2.
  - induction s as [|c s IH]; cbn; intros H; [ constructor | ].
    apply andb_true_iff in H as [H1 H2].
    change (String c s) with (String c "" ++ s)%string.
    constructor; [ now constructor | auto ].
Qed.

Lemma lang_Plus_Class (p : ascii -> bool) (s : string) :
  matches_lang (Regex.Plus (Regex.Class p)) s
  <-> exists c rest, s = String c rest /\ p c = true /\ all_chars p rest = true.
Proof.
  unfold Regex.Plus. split.
  - intros H. apply lang_Cat_inv in H as (s1 & s2 & -> & H1 & H2).
    apply lang_Class_inv in H1 as (c & -> & Hc).
    apply lang_Star_Class in H2. now exists c, s2.
  - intros (c & rest & -> & Hc & Hr).
    change (String c rest) with (String c "" ++ rest)%string.
    constructor; [ now constructor | now apply lang_Star_Class ].
Qed.

Lemma all_chars_true (s : string) : all_chars (fun _ => true) s = true.
Proof. induction s; cbn; auto. Qed.

Lemma email_word_iff (p := fun c => negb (is_space c || Ascii.eqb c "@")) (s : string) :
  email_word s = true <-> exists c rest, s = String c rest /\ p c = true /\ all_chars p rest = true.
Proof.
  unfold email_word. fold p. destruct s as [|c rest]; cbn.
  - split; [ discriminate | intros (c & rest & H & _); discriminate H ].
  - rewrite andb_true_iff. split.
    + intros [H1 H2]. now exists c, rest.
    + intros (c' & rest' & [= <- <-] & H1 & H2). auto.
Qed.

(** X7.  [isValidUrl] accepts exactly the strings that start with
    [http://] or [https://] followed by at least one code unit that is
    not a line terminator; what comes after that code unit is not looked
    at. *)
Theorem isValidUrl_iff (v : js_value) :
  isValidUrl v = Ok true
  <-> exists scheme c rest,
        v = VString (scheme ++ "://" ++ String c rest)
        /\ (scheme = "http" \/ scheme = "https")
        /\ is_line_terminator c = false.
Proof.
  destruct v; try (split; [ discriminate | intros (? & ? & ? & H & _); discriminate H ]).
  unfold isValidUrl, try_catch, ret, Regex.test_prefix.
  split.
  - intros H. injection H as H. apply matches_lang_iff in H.
    apply lang_Cat_inv in H as (u & a & -> & Hu & _). unfold urlPattern in Hu.
    apply lang_Cat_inv in Hu as (u1 & u2 & -> & H1 & H2). apply lang_Lit in H1. subst u1.
    apply lang_Cat_inv in H2 as (o & u3 & -> & Ho & H3).
    apply lang_Cat_inv in H3 as (u4 & w & -> & H4 & Hw). apply lang_Lit in H4. subst u4.
    apply lang_Plus_Class in Hw as (c & rest & -> & Hc & _).
    apply negb_true_iff in Hc.
    apply lang_Alt_inv in Ho as [He|Hs].
    + apply lang_Eps_inv in He. subst o. exists "http", c, (rest ++ a)%string.
      split; [ now rewrite !append_assoc | auto ].
    + apply lang_Char in Hs. subst o. exists "https", c, (rest ++ a)%string.
      split; [ now rewrite !append_assoc | auto ].
  - intros (scheme & c & rest & [= ->] & Hscheme & Hc). f_equal.
    apply matches_lang_iff.
    assert (matches_lang (Regex.Plus (Regex.Class (fun c => negb (is_line_terminator c))))
              (String c "")) as Hw.
    { apply lang_Plus_Class. exists c, "". now rewrite Hc. }
    assert (matches_lang (Regex.Star Regex.Any) rest) as Hrest.
    { apply lang_Star_Class, all_chars_true. }
    destruct Hscheme as [-> | ->].
    + apply (lang_cat _ _ ("http" ++ "" ++ "://" ++ String c "") rest); [ | exact Hrest ].
      unfold urlPattern.
      constructor; [ now apply lang_Lit | ].
      constructor; [ apply lang_alt_l; constructor | ].
      constructor; [ now apply lang_Lit | exact Hw ].
    + apply (lang_cat _ _ ("http" ++ "s" ++ "://" ++ String c "") rest); [ | exact Hrest ].
      unfold urlPattern.
      constructor; [ now apply lang_Lit | ].
      constructor; [ apply lang_alt_r; now apply lang_Char | ].
      constructor; [ now apply lang_Lit | exact Hw ].
Qed.

Lemma isValidUrl_iff_witness : isValidUrl (VString "http://a b") = Ok true.
Proof.
  apply isValidUrl_iff. exists "http", "a"%char, " b".
  split; [ reflexivity | ]. split; [ now left | reflexivity ].
Defined.

(** X8.  [isValidEmail] accepts exactly the strings of the form
    [local@domain.tld] where each of the three parts is non-empty and
    contains neither white space nor [@]; the domain part may itself
    contain dots. *)
Theorem isValidEmail_iff (v : js_value) :
  isValidEmail v = Ok true
  <-> exists l d t,
        v = VString (l ++ "@" ++ d ++ "." ++ t)
        /\ email_word l = true /\ email_word d = true /\ email_word t = true.
Proof.
  destruct v; try (split; [ discriminate | intros (? & ? & ? & H & _); discriminate H ]).
  unfold isValidEmail, ret, Regex.test_whole. split.
  - intros H. injection H as H. apply matches_lang_iff in H. unfold emailRegex in H.
    apply lang_Cat_inv in H as (l & u1 & -> & Hl & H1).
    apply lang_Cat_inv in H1 as (a & u2 & -> & Ha & H2). apply lang_Char in Ha. subst a.
    apply lang_Cat_inv in H2 as (d & u3 & -> & Hd & H3).
    apply lang_Cat_inv in H3 as (b & t & -> & Hb & Ht). apply lang_Char in Hb. subst b.
    exists l, d, t. split; [ reflexivity | ].
    repeat split; apply email_word_iff, lang_Plus_Class; assumption.
  - intros (l & d & t & [= ->] & Hl & Hd & Ht). f_equal.
    apply matches_lang_iff. unfold emailRegex.
    apply email_word_iff, lang_Plus_Class in Hl, Hd, Ht.
    apply lang_cat; [ exact Hl | ].
    apply (lang_cat _ _ "@" (d ++ "." ++ t)); [ now apply lang_Char | ].
    apply lang_cat; [ exact Hd | ].
    apply (lang_cat _ _ "." t); [ now apply lang_Char | exact Ht ].
Qed.

Lemma isValidEmail_iff_witness : isValidEmail (VString "a.b@mail.example.org") = Ok true.
Proof.
  apply isValidEmail_iff. exists "a.b", "mail.example", "org".
  repeat split; reflexivity.
Defined.

(** ** Scalar and array guards *)

Lemma trim_start_empty_iff (s : string) : trim_start s = "" <-> all_chars is_space s = true.
Proof.
  induction s as [|c s IH]; cbn; [ tauto | ].
  destruct (is_space c); cbn; [ exact IH | split; discriminate ].
Qed.

Lemma trim_start_head (s : string) (c : ascii) (rest : string) :
  trim_start s = String c rest -> is_space c = false.
Proof.
  induction s as [|x s IH]; cbn; [ discriminate | ].
  destruct (is_space x) eqn:E; [ exact IH | ]. intros [= <- <-]. exact E.
Qed.

Lemma trim_end_head (c : ascii) (rest : string) :
  is_space c = false -> trim_end (String c rest) <> "".
Proof. intros H. cbn. rewrite H. destruct (trim_end rest); discriminate. Qed.

Lemma trim_empty_iff (s : string) : trim s = "" <-> all_chars is_space s = true.
Proof.
  unfold trim. rewrite <- trim_start_empty_iff. split.
  - intros H. destruct (trim_start s) as [|c rest] eqn:E; [ reflexivity | ].
    apply trim_start_head in E. now apply trim_end_head in H.
  - intros ->. reflexivity.
Qed.

(** X9.  [isNonEmptyString] accepts exactly the strings with at least one
    code unit that is not white space: the empty string and strings of
    blanks, tabs and line breaks only are rejected. *)
Theorem isNonEmptyString_iff (v : js_value) :
  isNonEmptyString v = Ok true
  <-> exists s, v = VString s /\ all_chars is_space s = false.
Proof.
  destruct v; try (split; [ discriminate | intros (? & H & _); discriminate H ]).
  unfold isNonEmptyString. cbn [typeof js_type_eqb call_trim bind ret js_and].
  rewrite ret_true_iff. split.
  - intros H. exists s. split; [ reflexivity | ].
    destruct (all_chars is_space s) eqn:E; [ | reflexivity ].
    apply trim_empty_iff in E. rewrite E in H. discriminate H.
  - intros (s' & [= <-] & H).
    destruct (trim s) eqn:E; [ | reflexivity ].
    apply trim_empty_iff in E. congruence.
Qed.

Lemma isNonEmptyString_iff_witness : isNonEmptyString (VString "  x ") = Ok true.
Proof. apply isNonEmptyString_iff. exists "  x ". split; reflexivity. Defined.

Lemma every_true_iff (cb : js_value -> result bool) (items : list js_value) :
  every cb items = Ok true <-> Forall (fun x => cb x = Ok true) items.
Proof.
  induction items as [|x items IH]; cbn [every].
  - split; [ constructor | reflexivity ].
  - split.
    + intros H. destruct (cb x) as [[]|] eqn:E; try discriminate H.
      constructor; [ exact E | now apply IH ].
    + intros H. inversion H as [|? ? Hx Hr]; subst. rewrite Hx. cbn. now apply IH.
Qed.

(** X10.  On an array that keeps the method [every], [isStringArray]
    accepts exactly when all the elements are strings, the empty array
    included; it rejects whatever is not an array; and it raises on an
    array whose [every] is shadowed by a property that is not a
    function. *)
Theorem isStringArray_iff :
  (forall items props, lookup "every" props = None ->
     (isStringArray (VArray items props) = Ok true
      <-> Forall (fun x => exists s, x = VString s) items))
  /\ (forall v, isArray v = false -> isStringArray v = Ok false)
  /\ (forall items props f, lookup "every" props = Some f -> typeof f <> TFunction ->
        isStringArray (VArray items props) = Throw TypeError).
Proof.
  split; [ | split ].
  - intros items props Hp. unfold isStringArray, call_every, call_method. rewrite Hp.
    cbn [isArray js_and bind ret]. rewrite every_true_iff. split.
    + intros H. eapply Forall_impl; [ | exact H ]. intros x Hx. cbn in Hx.
      apply ret_true_iff, typeof_string_inv in Hx. exact Hx.
    + intros H. eapply Forall_impl; [ | exact H ]. intros x [s ->]. reflexivity.
  - intros v Hv. unfold isStringArray. rewrite Hv. reflexivity.
  - intros items props f Hp Hf. unfold isStringArray, call_every, call_method, call_found.
    rewrite Hp. cbn [isArray js_and bind ret].
    destruct (typeof f); try reflexivity. now elim Hf.
Qed.

Lemma isStringArray_iff_witness :
  isStringArray (VArray [VString "a"; VString ""] [("total", VNumber S754_nan)]) = Ok true
  /\ isStringArray (VString "a") = Ok false
  /\ isStringArray (VArray [VString "a"] [("every", VBool true)]) = Throw TypeError.
Proof.
  pose proof isStringArray_iff as (H1 & H2 & H3).
  split; [ | split ].
  - apply H1; [ reflexivity | ]. repeat constructor; eexists; reflexivity.
  - apply H2. reflexivity.
  - apply (H3 _ _ (VBool true)); [ reflexivity | discriminate ].
Defined.



Lemma string_length_append (a b : string) :
  String.length (a ++ b) = (String.length a + String.length b)%nat.
Proof. induction a as [|c a IH]; cbn; [ reflexivity | now rewrite IH ]. Qed.

Lemma pad_length (w : nat) (n : Z) (acc : string) :
  String.length (EcmaDate.pad w n acc) = (w + String.length acc)%nat.
Proof.
  revert n acc. induction w as [|w IH]; intros n acc; cbn [EcmaDate.pad]; [ reflexivity | ].
  rewrite IH. cbn. lia.
Qed.

Lemma iso_string_length (t : Z) :
  String.length (EcmaDate.iso_string t) = 24%nat
  \/ String.length (EcmaDate.iso_string t) = 27%nat.
Proof.
  unfold EcmaDate.iso_string, EcmaDate.year_string.
  destruct (_ && _); [ left | right; destruct (_ <? 0)%Z ];
    repeat (rewrite ?string_length_append, ?pad_length; cbn [String.length]); lia.
Qed.

(** X12.  Every string [isISODateString] accepts has 24 code units (years
    0 to 9999) or 27 (expanded years); shorter date forms such as a bare
    date are never accepted, whatever the host's parser makes of them. *)
Theorem isISODateString_length (hostParse : string -> option Z) (s : string) :
  isISODateString hostParse (VString s) = Ok true ->
  String.length s = 24%nat \/ String.length s = 27%nat.
Proof.
  intros H. apply isISODateString_canonical in H as (t & _ & [= ->]).
  apply iso_string_length.
Qed.

Lemma isISODateString_length_witness :
  String.length "1970-01-01T00:00:00.000Z" = 24%nat
  \/ String.length "1970-01-01T00:00:00.000Z" = 27%nat.
Proof.
  apply (isISODateString_length (fun _ => None)). vm_compute. reflexivity.
Defined.

(** ** Content items *)

Lemma js_or_true_iff (a b : result bool) :
  a ||| b = Ok true <-> a = Ok true \/ (a = Ok false /\ b = Ok true).
Proof.
  unfold js_or, bind, ret. destruct a as [[]|]; split; intros H.
  - now left.
  - reflexivity.
  - now right.
  - destruct H as [H|[_ H]]; [ discriminate H | exact H ].
  - discriminate H.
  - destruct H as [H|[H _]]; discriminate H.
Qed.

Lemma isContentItem_true_iff (v : js_value) :
  isContentItem v = Ok true <-> exists A, variant_guard A v = Ok true.
Proof.
  split.
  - unfold isContentItem. rewrite !js_or_true_iff.
    intros H.
    repeat match type of H with
           | _ \/ _ => destruct H as [H|[_ H]]
           end;
      [ exists CompanyItem | exists ProjectItem | exists SkillGroupItem
      | exists EducationItem | exists ProfileSectionItem | exists AccomplishmentItem ];
      exact H.
  - intros [A HA].
    assert (forall B, B <> A -> variant_guard B v = Ok false) as Hother.
    { intros B Hne. apply variant_guard_wrong_type. intros HB.
      apply variant_guard_true_iff in HA as (_ & _ & HA & _).
      rewrite HA in HB. injection HB as HB. apply discriminator_inj in HB.
      now elim Hne. }
    pose proof (Hother CompanyItem) as H1. pose proof (Hother ProjectItem) as H2.
    pose proof (Hother SkillGroupItem) as H3. pose proof (Hother EducationItem) as H4.
    pose proof (Hother ProfileSectionItem) as H5.
    cbn [variant_guard] in H1, H2, H3, H4, H5.
    unfold isContentItem.
    destruct A; cbn [variant_guard] in HA;
      rewrite ?H1, ?H2, ?H3, ?H4, ?H5 by discriminate;
      rewrite HA; reflexivity.
Qed.

(** X13.  [isContentItem] is the union of the six variant guards: it
    accepts a value exactly when one variant guard does, that variant is
    unique, and it is the one whose discriminator the value's [type]
    holds. *)
Theorem isContentItem_union (v : js_value) :
  isContentItem v = Ok true
  <-> exists A, variant_guard A v = Ok true
                /\ v.["type"] = Ok (VString (discriminator A))
                /\ forall B, variant_guard B v = Ok true -> B = A.
Proof.
  rewrite isContentItem_true_iff. split.
  - intros [A HA]. exists A. split; [ exact HA | ].
    pose proof HA as HA'. apply variant_guard_true_iff in HA' as (_ & _ & Ht & _).
    split; [ exact Ht | ]. intros B HB.
    apply variant_guard_true_iff in HB as (_ & _ & HB & _).
    rewrite Ht in HB. injection HB as HB. now apply discriminator_inj in HB.
  - intros (A & HA & _). now exists A.
Qed.

Lemma isContentItem_union_witness : isContentItem sample_company_item = Ok true.
Proof.
  apply isContentItem_union. exists CompanyItem.
  split; [ reflexivity | ]. split; [ reflexivity | ].
  intros B. destruct B; try reflexivity; discriminate.
Defined.

(** X14.  [isContentItemType] accepts exactly the six strings the variant
    guards compare [type] with, so the base check and the variant checks
    agree on the set of discriminators. *)
Theorem isContentItemType_iff (v : js_value) :
  isContentItemType v = Ok true <-> exists A, v = VString (discriminator A).
Proof.
  unfold isContentItemType. rewrite js_and_true_iff, !ret_true_iff, typeof_string_inv.
  split.
  - intros ((s & ->) & H). apply includes_string_iff in H. simpl in H.
    destruct H as [<-|[<-|[<-|[<-|[<-|[<-|[]]]]]]];
      [ now exists CompanyItem | now exists ProjectItem | now exists SkillGroupItem
      | now exists EducationItem | now exists ProfileSectionItem
      | now exists AccomplishmentItem ].
  - intros (A & ->). split; [ eexists; reflexivity | ].
    apply includes_string_iff. destruct A; simpl; tauto.
Qed.

Lemma isContentItemType_iff_witness : isContentItemType (VString "skill-group") = Ok true.
Proof. apply isContentItemType_iff. now exists SkillGroupItem. Defined.

(** X15.  [isAIProvider] accepts exactly the three literals of the
    declared [AIProvider] union, and strings only. *)
Theorem isAIProvider_iff (v : js_value) :
  isAIProvider v = Ok true <-> exists p : AIProvider, v = VString (AIProvider_literal p).
Proof.
  unfold isAIProvider. rewrite js_and_true_iff, !ret_true_iff, typeof_string_inv.
  split.
  - intros ((s & ->) & H). apply includes_string_iff in H. simpl in H.
    destruct H as [<-|[<-|[<-|[]]]];
      [ now exists claude | now exists openai | now exists gemini ].
  - intros (p & ->). split; [ eexists; reflexivity | ].
    apply includes_string_iff. destruct p; simpl; tauto.
Qed.

Lemma isAIProvider_iff_witness : isAIProvider (VString "gemini") = Ok true.
Proof. apply isAIProvider_iff. now exists gemini. Defined.

(** ** Record guards *)

(** X16.  The record guards take a [Date] that carries properties for
    the plain object with the same properties: a [Date] passes
    [isObject], and each record guard gives on it the verdict it gives on
    that object.  So every record guard rejects a [Date] without
    properties, and [isCompany] accepts one that carries a [name] and a
    [website]. *)
Theorem record_guards_on_Date (tv : option Z) :
  (forall props, isObject (VDate tv props) = Ok true)
  /\ (forall g, In g entity_guards ->
        forall props, g (VDate tv props) = g (VObject props))
  /\ (forall g, In g entity_guards -> g (VDate tv []) = Ok false)
  /\ isCompany (VDate tv [("name", VString "Acme"); ("website", VString "acme.example")])
     = Ok true.
Proof.
  split; [ reflexivity | ]. split; [ | split; [ | reflexivity ] ].
  - intros g Hin props. unfold entity_guards, isObject_guards in Hin.
    repeat (destruct Hin as [<-|Hin]; [ reflexivity | ]).
    destruct Hin.
  - intros g Hin. unfold entity_guards, isObject_guards in Hin.
    repeat (destruct Hin as [<-|Hin]; [ reflexivity | ]).
    destruct Hin.
Qed.

Lemma record_guards_on_Date_witness :
  isJobMatch (VDate None []) = Ok false
  /\ isStopList (VDate None [("excludedCompanies", VArray [] [])])
     = isStopList (VObject [("excludedCompanies", VArray [] [])]).
Proof.
  split.
  - apply (proj1 (proj2 (proj2 (record_guards_on_Date None)))). simpl. tauto.
  - apply (proj1 (proj2 (record_guards_on_Date None))). simpl. tauto.
Defined.

Lemma get_ext (k : string) (fs fs' : list (string * js_value)) :
  lookup k fs = lookup k fs' -> (VObject fs).[k] = (VObject fs').[k].
Proof. intros H. cbn. now rewrite H. Qed.

(** Replaces every read of a property of [fs] by the read of the same
    property of [fs'], given that the two agree on the names in [H]. *)
Ltac agree_on H fs fs' :=
  repeat match goal with
         | |- context [ get (VObject fs) ?k ] =>
             rewrite (get_ext k fs fs')
               by (apply H; unfold base_content_item_fields; simpl; tauto)
         end.

Lemma isApiResponse_ext (fs fs' : list (string * js_value)) :
  (forall k, In k ["success"; "data"; "error"] -> lookup k fs = lookup k fs') ->
  isApiResponse (VObject fs) = isApiResponse (VObject fs').
Proof.
  intros H. rewrite !isApiResponse_object.
  rewrite (H "success"), (H "data"), (H "error") by (simpl; tauto). reflexivity.
Qed.

(** X17.  The verdict of a record guard on an object depends only on the
    properties the guard reads: two objects that agree on those names get
    the same verdict, whatever other properties either of them carries. *)
Theorem record_guards_read_only_their_fields
  (g : js_value -> result bool) (keys : list string) (fs fs' : list (string * js_value)) :
  In (g, keys) record_guard_fields ->
  (forall k, In k keys -> lookup k fs = lookup k fs') ->
  g (VObject fs) = g (VObject fs').
Proof.
  intros Hin H. unfold record_guard_fields in Hin.
  destruct Hin as [[= <- <-]|Hin]; [ now apply isApiResponse_ext | ].
  repeat (destruct Hin as [[= <- <-]|Hin];
          [ unfold isQueueItem, isStopList, isQueueSettings, isAISettings,
              isExperienceHighlight, isProjectRecommendation, isGapMitigation,
              isResumeIntakeData, isJobListing, isJobMatch, isCompany, isContentItem,
              isCompanyItem, isProjectItem, isSkillGroupItem, isEducationItem,
              isProfileSectionItem, isAccomplishmentItem, hasBaseContentItemFields;
            change (isObject (VObject fs)) with (isObject (VObject fs'));
            agree_on H fs fs'; reflexivity | ]).
  destruct Hin.
Qed.

Lemma record_guards_read_only_their_fields_witness :
  isStopList
    (VObject [("excludedCompanies", VArray [] []); ("excludedKeywords", VArray [] []);
              ("excludedDomains", VArray [] []); ("updatedBy", VNumber S754_nan)])
  = isStopList
      (VObject [("excludedDomains", VArray [] []); ("excludedKeywords", VArray [] []);
                ("excludedCompanies", VArray [] [])]).
Proof.
  apply (record_guards_read_only_their_fields isStopList
           ["excludedCompanies"; "excludedKeywords"; "excludedDomains"]).
  - simpl. tauto.
  - intros k Hk. simpl in Hk.
    destruct Hk as [<-|[<-|[<-|[]]]]; reflexivity.
Defined.

Lemma call_found_not_Ok {A : Type} (f : js_value) (a : A) : call_found f <> Ok a.
Proof. unfold call_found. destruct (js_type_eqb _ _); discriminate. Qed.

Lemma bind_call_found_not_Ok {A : Type} (m : result js_value) (a : A) :
  (f <- m ;; call_found f) <> Ok a.
Proof. destruct m; cbn [bind]; [ apply call_found_not_Ok | discriminate ]. Qed.

Lemma call_every_true_inv (v : js_value) (cb : js_value -> result bool) :
  call_every v cb = Ok true ->
  exists items props, v = VArray items props /\ lookup "every" props = None
                      /\ Forall (fun x => cb x = Ok true) items.
Proof.
  destruct v; unfold call_every;
    try (intros H; now apply bind_call_found_not_Ok in H).
  unfold call_method. destruct (lookup "every" props) as [f|] eqn:E.
  - intros H. now apply call_found_not_Ok in H.
  - intros H. exists items, props.
    split; [ reflexivity | split; [ exact E | now apply every_true_iff ] ].
Qed.

Lemma isArray_then_every (o : js_value) (k : string) (cb : js_value -> result bool) :
  (v <- o.[k] ;; call_every v cb) = Ok true ->
  exists items props, o.[k] = Ok (VArray items props)
                      /\ Forall (fun x => cb x = Ok true) items.
Proof.
  destruct (o.[k]) as [v|]; [ | discriminate ]. cbn [bind]. intros H.
  apply call_every_true_inv in H as (items & props & -> & _ & H).
  now exists items, props.
Qed.

(** X18.  [isResumeIntakeData] validates its nested records: when it
    accepts a value whose arrays keep the method [every],
    [experienceHighlights] is an array whose every element passes
    [isExperienceHighlight] and [projectsToInclude] is an array whose
    every element passes [isProjectRecommendation]. *)
Theorem isResumeIntakeData_nested (v : js_value) :
  arrays_keep "every" v = true ->
  isResumeIntakeData v = Ok true ->
  (exists hs props, v.["experienceHighlights"] = Ok (VArray hs props)
                    /\ Forall (fun h => isExperienceHighlight h = Ok true) hs)
  /\ (exists ps props, v.["projectsToInclude"] = Ok (VArray ps props)
                       /\ Forall (fun p => isProjectRecommendation p = Ok true) ps).
Proof.
  intros _. unfold isResumeIntakeData. rewrite guarded_true_iff, !js_and_true_iff.
  intros (_ & ((((((_ & Ha1) & He1) & Ha2) & He2) & _) & _)).
  split; eapply isArray_then_every; eassumption.
Qed.

Lemma isResumeIntakeData_nested_witness :
  exists hs props,
    (VObject
       [("jobId", VString "j"); ("jobTitle", VString "t"); ("company", VString "c");
        ("targetSummary", VString "s"); ("skillsPriority", VArray [] []);
        ("experienceHighlights",
          VArray [VObject [("company", VString "c"); ("title", VString "t");
                           ("pointsToEmphasize", VArray [VString "p"] [])]] []);
        ("projectsToInclude", VArray [] []); ("achievementAngles", VArray [] []);
        ("atsKeywords", VArray [] [])]).["experienceHighlights"] = Ok (VArray hs props)
    /\ Forall (fun h => isExperienceHighlight h = Ok true) hs.
Proof.
  eapply (proj1 (isResumeIntakeData_nested _ _ _)).
  Unshelve. all: reflexivity.
Defined.

(** ** The schema extraction script: [getType] *)

Lemma getType_array_call (items : list js_value) (props : list (string * js_value)) :
  getType (VArray items props) =
  if Nat.eqb (List.length items) 0 then ret "array"
  else
    mapped <- call_method props "map" (map_getType items) ;;
    if Nat.eqb (List.length (unique mapped)) 1
    then ret (nth 0 (unique mapped) "undefined" ++ "[]")
    else ret "array".
Proof. reflexivity. Qed.

Lemma getType_array (items : list js_value) (props : list (string * js_value)) :
  lookup "map" props = None ->
  getType (VArray items props) =
  if Nat.eqb (List.length items) 0 then ret "array"
  else
    mapped <- map_getType items ;;
    if Nat.eqb (List.length (unique mapped)) 1
    then ret (nth 0 (unique mapped) "undefined" ++ "[]")
    else ret "array".
Proof.
  intros H. rewrite getType_array_call. unfold call_method. rewrite H. reflexivity.
Qed.

Lemma map_getType_Forall2 (items : list js_value) (ts : list string) :
  map_getType items = Ok ts <-> Forall2 (fun x t => getType x = Ok t) items ts.
Proof.
  revert ts. induction items as [|x items IH]; intros ts; cbn [map_getType].
  - split.
    + intros [= <-]. constructor.
    + intros H. inversion H. reflexivity.
  - split.
    + intros H. destruct (getType x) as [t|] eqn:E; [ | discriminate H ].
      cbn [bind] in H. destruct (map_getType items) as [ts'|] eqn:E'; [ | discriminate H ].
      injection H as <-. constructor; [ exact E | now apply IH ].
    + intros H. inversion H as [|? t ? ts' Hx Hr]; subst.
      rewrite Hx. cbn [bind]. apply IH in Hr. rewrite Hr. reflexivity.
Qed.

Lemma map_getType_total (items : list js_value) :
  Forall (fun x => returns (getType x)) items -> returns (map_getType items).
Proof.
  induction 1 as [|x items [t Hx] _ [ts IH]]; cbn [map_getType].
  - apply returns_ret.
  - rewrite Hx, IH. apply returns_ret.
Qed.

Lemma getType_total (v : js_value) :
  arrays_keep "map" v = true -> returns (getType v).
Proof.
  revert v.
  apply (js_value_deep_ind (fun v => arrays_keep "map" v = true -> returns (getType v)));
    try (intros; eexists; reflexivity).
  - intros b _. destruct b; eexists; reflexivity.
  - intros n _. destruct n; eexists; reflexivity.
  - intros z _. destruct z; eexists; reflexivity.
  - intros s _. destruct s; eexists; reflexivity.
  - intros items props IH H. apply arrays_keep_array in H as (Hm & Hi & _).
    rewrite (getType_array items props Hm).
    destruct (Nat.eqb (List.length items) 0); [ apply returns_ret | ].
    assert (returns (map_getType items)) as [ts ->].
    { apply map_getType_total. rewrite Forall_forall in *. auto. }
    cbn [bind]. destruct (Nat.eqb _ 1); apply returns_ret.
  - intros fs _ _. cbn. destruct (strict_eq (or_undefined (lookup "_seconds" fs)) LUndefined);
      apply returns_ret.
Qed.

Lemma set_add_In (x y : string) (set : list string) :
  In y (set_add x set) <-> y = x \/ In y set.
Proof.
  unfold set_add. destruct (existsb (String.eqb x) set) eqn:E.
  - split; [ auto | ]. intros [->|H]; [ | exact H ].
    apply existsb_exists in E as (z & Hz & Ez). apply String.eqb_eq in Ez. now subst.
  - rewrite in_app_iff. cbn. intuition.
Qed.

Lemma fold_set_add_In (l set : list string) (y : string) :
  In y (fold_left (fun set x => set_add x set) l set) <-> In y set \/ In y l.
Proof.
  revert set. induction l as [|x l IH]; intros set; cbn [fold_left].
  - cbn. tauto.
  - rewrite IH, set_add_In. cbn. intuition.
Qed.

Lemma fold_set_add_same (l : list string) (t : string) :
  Forall (eq t) l -> fold_left (fun set x => set_add x set) l [t] = [t].
Proof.
  induction 1 as [|x l <- _ IH]; cbn [fold_left]; [ reflexivity | ].
  unfold set_add at 2. cbn [existsb]. rewrite String.eqb_refl. exact IH.
Qed.

Lemma two_distinct_members (l : list string) (x y : string) :
  In x l -> In y l -> x <> y -> Nat.eqb (List.length l) 1 = false.
Proof.
  destruct l as [|a [|b l]]; cbn; intros Hx Hy Hne; try reflexivity.
  destruct Hx as [<-|[]], Hy as [<-|[]]. congruence.
Qed.

(** X19.  [getType] on arrays: the empty array is reported as "array";
    a non-empty array that keeps the method [map] and whose elements all
    have the same type [t] is reported as [t] followed by "[]" (so nested
    arrays give "number[][]"); an array with two elements of different
    types is reported as "array", provided the arrays in it keep the
    method [map]. *)
Theorem getType_array_rule :
  (forall props, getType (VArray [] props) = Ok "array")
  /\ (forall x items props t,
        lookup "map" props = None ->
        getType x = Ok t -> Forall (fun y => getType y = Ok t) items ->
        getType (VArray (x :: items) props) = Ok (t ++ "[]"))
  /\ (forall items props x y,
        arrays_keep "map" (VArray items props) = true ->
        In x items -> In y items -> getType x <> getType y ->
        getType (VArray items props) = Ok "array").
Proof.
  split; [ reflexivity | ]. split.
  - intros x items props t Hm Hx Hitems. rewrite (getType_array _ props Hm).
    cbn [List.length Nat.eqb].
    assert (map_getType (x :: items) = Ok (t :: map (fun _ => t) items)) as ->.
    { apply map_getType_Forall2. constructor; [ exact Hx | ].
      induction Hitems; cbn; constructor; auto. }
    cbn [bind].
    assert (unique (t :: map (fun _ => t) items) = [t]) as ->; [ | reflexivity ].
    unfold unique. cbn [fold_left]. change (set_add t []) with [t].
    apply fold_set_add_same.
    clear. induction items; cbn; constructor; auto.
  - intros items props x y Hk Hx Hy Hne.
    apply arrays_keep_array in Hk as (Hm & Hi & _).
    rewrite (getType_array items props Hm).
    assert (forall z, In z items -> returns (getType z)) as Htotal.
    { intros z Hz. apply getType_total. rewrite Forall_forall in Hi. now apply Hi. }
    destruct items as [|z items]; [ destruct Hx | ]. cbn [List.length Nat.eqb].
    destruct (Htotal x Hx) as [tx Ex], (Htotal y Hy) as [ty Ey].
    assert (exists ts, map_getType (z :: items) = Ok ts /\ In tx ts /\ In ty ts)
      as (ts & -> & Htx & Hty).
    { assert (returns (map_getType (z :: items))) as [ts Hts]
        by (apply map_getType_total, Forall_forall, Htotal).
      exists ts. split; [ exact Hts | ].
      assert (forall w tw, In w (z :: items) -> getType w = Ok tw -> In tw ts) as Hin.
      { intros w tw Hw Ew. apply map_getType_Forall2 in Hts.
        clear - Hts Hw Ew. induction Hts as [|b tb l ts Hb _ IH]; [ destruct Hw | ].
        destruct Hw as [<-|Hw]; [ left; congruence | right; auto ]. }
      split; eauto. }
    cbn [bind].
    rewrite (two_distinct_members (unique ts) tx ty); [ reflexivity | | | congruence ].
    + apply fold_set_add_In. now right.
    + apply fold_set_add_In. now right.
Qed.

Lemma getType_array_rule_witness :
  getType (VArray [VArray [VNumber S754_nan] []; VArray [VNumber (S754_zero false)] []] [])
  = Ok "number[][]"
  /\ getType (VArray [VString "a"; VNull; VString "b"] []) = Ok "array".
Proof.
  split.
  - apply (proj1 (proj2 getType_array_rule)
             (VArray [VNumber S754_nan] []) [VArray [VNumber (S754_zero false)] []] []
             "number[]");
      [ reflexivity | reflexivity | repeat constructor ].
  - apply (proj2 (proj2 getType_array_rule)
             [VString "a"; VNull; VString "b"] [] (VString "a") VNull);
      [ reflexivity | simpl; tauto | simpl; tauto | discriminate ].
Defined.



(** An array whose [map] is shadowed by a property that is not a function
    makes [getType] raise. *)
Lemma getType_raises_on_shadowed_map :
  getType (VArray [VNull] [("map", VNull)]) = Throw TypeError.
Proof. reflexivity. Qed.

(** ** The schema extraction script: [mergeSchemas] *)

Lemma assoc_get_set_eq {A : Type} (k : string) (a : A) (m : list (string * A)) :
  assoc_get k (assoc_set k a m) = Some a.
Proof.
  induction m as [|[k' a'] m IH]; cbn.
  - now rewrite String.eqb_refl.
  - destruct (String.eqb k k') eqn:E; cbn; rewrite ?String.eqb_refl, ?E; auto.
Qed.

Lemma assoc_get_set_neq {A : Type} (k k' : string) (a : A) (m : list (string * A)) :
  k <> k' -> assoc_get k' (assoc_set k a m) = assoc_get k' m.
Proof.
  intros Hne. assert (String.eqb k' k = false) as Hf
    by (apply String.eqb_neq; congruence).
  induction m as [|[k0 a0] m IH]; cbn.
  - now rewrite Hf.
  - destruct (String.eqb k k0) eqn:E; cbn.
    + apply String.eqb_eq in E. subst k0. now rewrite Hf.
    + now rewrite IH.
Qed.

Lemma merge_schema_app (merged : list (string * merged_field)) (a b : schema) :
  merge_schema merged (a ++ b)%list = (m <- merge_schema merged a ;; merge_schema m b).
Proof.
  revert merged. induction a as [|[f i] a IH]; intros merged; cbn [merge_schema app bind ret].
  - reflexivity.
  - destruct (merge_field merged f i) as [m|]; cbn [bind]; [ apply IH | reflexivity ].
Qed.

Lemma merge_schemas_concat (merged : list (string * merged_field)) (schemas : list schema) :
  merge_schemas merged schemas = merge_schema merged (concat schemas).
Proof.
  revert merged. induction schemas as [|s schemas IH]; intros merged;
    cbn [merge_schemas concat].
  - reflexivity.
  - rewrite merge_schema_app.
    destruct (merge_schema merged s); cbn [bind]; [ apply IH | reflexivity ].
Qed.

Lemma merge_field_get (merged merged' : list (string * merged_field)) (f g : string)
  (info : field_info) :
  merge_field merged f info = Ok merged' ->
  assoc_get g merged'
  = if String.eqb g f then merge_sighting (assoc_get g merged) info else assoc_get g merged.
Proof.
  unfold merge_field, merge_sighting. intros H.
  destruct (String.eqb g f) eqn:E.
  - apply String.eqb_eq in E. subst g.
    destruct (assoc_get f merged) as [m|].
    + injection H as <-. apply assoc_get_set_eq.
    + destruct (inherited f); [ discriminate H | ]. injection H as <-.
      apply assoc_get_set_eq.
  - apply String.eqb_neq in E.
    destruct (assoc_get f merged) as [m|].
    + injection H as <-. apply assoc_get_set_neq. congruence.
    + destruct (inherited f); [ discriminate H | ]. injection H as <-.
      apply assoc_get_set_neq. congruence.
Qed.

Lemma merge_schema_get (entries : schema) (merged merged' : list (string * merged_field))
  (g : string) :
  merge_schema merged entries = Ok merged' ->
  assoc_get g merged'
  = fold_left merge_sighting
      (map snd (filter (fun kv => String.eqb g (fst kv)) entries)) (assoc_get g merged).
Proof.
  revert merged. induction entries as [|[f i] entries IH]; intros merged H;
    cbn [merge_schema] in H.
  - injection H as <-. reflexivity.
  - destruct (merge_field merged f i) as [m|] eqn:E; [ | discriminate H ].
    cbn [bind] in H. rewrite (IH _ H), (merge_field_get _ _ _ g _ E).
    cbn [filter fst]. destruct (String.eqb g f); reflexivity.
Qed.

Lemma fold_merge_sighting (rest : list field_info) (m : merged_field) :
  fold_left merge_sighting rest (Some m) = Some (fold_left merged_update rest m).
Proof.
  revert m. induction rest as [|i rest IH]; intros m; cbn [fold_left]; [ reflexivity | ].
  unfold merge_sighting at 2. apply IH.
Qed.

Lemma fold_merged_update (rest : list field_info) (m : merged_field) :
  let m' := fold_left merged_update rest m in
  merged_types m' = fold_left (fun set x => set_add x set) (map info_type rest) (merged_types m)
  /\ merged_nullable m' = merged_nullable m || existsb info_nullable rest
  /\ merged_samples m'
     = fold_left (fun set x => set_add x set) (map info_sample rest) (merged_samples m).
Proof.
  cbv zeta. revert m. induction rest as [|i rest IH]; intros m; cbn [fold_left map existsb].
  - now rewrite orb_false_r.
  - destruct (IH (merged_update m i)) as (-> & -> & ->). cbn.
    now rewrite orb_assoc.
Qed.

Lemma mergeSchemas_sightings (schemas : list schema)
  (merged : list (string * merged_field)) (f : string) :
  mergeSchemas schemas = Ok merged ->
  assoc_get f merged = fold_left merge_sighting (sightings f schemas) None.
Proof.
  unfold mergeSchemas, sightings. rewrite merge_schemas_concat. intros H.
  now rewrite (merge_schema_get _ _ _ f H).
Qed.

Lemma mergeSchemas_field_summary (schemas : list schema)
  (merged : list (string * merged_field)) (f : string) :
  mergeSchemas schemas = Ok merged ->
  match assoc_get f merged with
  | None => sightings f schemas = []
  | Some m =>
      sightings f schemas <> []
      /\ merged_types m = unique (map info_type (sightings f schemas))
      /\ merged_nullable m = existsb info_nullable (sightings f schemas)
      /\ merged_samples m = unique (map info_sample (sightings f schemas))
  end.
Proof.
  intros H. rewrite (mergeSchemas_sightings _ _ f H).
  destruct (sightings f schemas) as [|first rest]; cbn [fold_left]; [ reflexivity | ].
  unfold merge_sighting at 2. rewrite fold_merge_sighting.
  destruct (fold_merged_update rest (merged_init first)) as (-> & -> & ->).
  split; [ discriminate | ]. repeat split; reflexivity.
Qed.

(** X21.  Per field, [mergeSchemas] returns the merge of the records of
    that field alone: a field is in the result exactly when some schema
    has it; its [types] are the distinct types seen, in order of first
    occurrence; it is [nullable] exactly when one of its records is; its
    [samples] are the distinct samples seen. *)
Theorem mergeSchemas_field (schemas : list schema) (merged : list (string * merged_field))
  (f : string) :
  mergeSchemas schemas = Ok merged ->
  match assoc_get f merged with
  | None => sightings f schemas = []
  | Some m =>
      sightings f schemas <> []
      /\ merged_types m = unique (map info_type (sightings f schemas))
      /\ merged_nullable m = existsb info_nullable (sightings f schemas)
      /\ merged_samples m = unique (map info_sample (sightings f schemas))
  end.
Proof. apply mergeSchemas_field_summary. Qed.

Lemma mergeSchemas_field_witness :
  exists merged,
    mergeSchemas sample_schemas = Ok merged
    /\ match assoc_get "company_id" merged with
       | None => sightings "company_id" sample_schemas = []
       | Some m =>
           sightings "company_id" sample_schemas <> []
           /\ merged_types m = unique (map info_type (sightings "company_id" sample_schemas))
           /\ merged_nullable m = existsb info_nullable (sightings "company_id" sample_schemas)
           /\ merged_samples m
              = unique (map info_sample (sightings "company_id" sample_schemas))
       end.
Proof.
  eexists. split; [ reflexivity | ].
  apply (mergeSchemas_field sample_schemas). reflexivity.
Defined.

Lemma merge_field_keeps_inherited_out (merged merged' : list (string * merged_field))
  (f : string) (info : field_info) :
  (forall g, inherited g = true -> assoc_get g merged = None) ->
  merge_field merged f info = Ok merged' ->
  inherited f = false /\ forall g, inherited g = true -> assoc_get g merged' = None.
Proof.
  intros Hinv H.
  assert (inherited f = false) as Hf.
  { destruct (inherited f) eqn:E; [ | reflexivity ].
    unfold merge_field in H. rewrite (Hinv f E), E in H. discriminate H. }
  split; [ exact Hf | ]. intros g Hg.
  rewrite (merge_field_get _ _ _ g _ H).
  destruct (String.eqb g f) eqn:E; [ | now apply Hinv ].
  apply String.eqb_eq in E. congruence.
Qed.

Lemma merge_schema_raises_iff (entries : schema) (merged : list (string * merged_field)) :
  (forall g, inherited g = true -> assoc_get g merged = None) ->
  (merge_schema merged entries = Throw TypeError
   <-> exists f info, In (f, info) entries /\ inherited f = true)
  /\ (returns (merge_schema merged entries)
      <-> forall f info, In (f, info) entries -> inherited f = false).
Proof.
  revert merged. induction entries as [|[f i] entries IH]; intros merged Hinv;
    cbn [merge_schema].
  - split; split.
    + discriminate.
    + intros (f & info & [] & _).
    + intros _ f info [].
    + intros _. apply returns_ret.
  - destruct (merge_field merged f i) as [m|e] eqn:E; cbn [bind].
    + destruct (merge_field_keeps_inherited_out _ _ _ _ Hinv E) as [Hf Hinv'].
      destruct (IH m Hinv') as [IH1 IH2]. split.
      * rewrite IH1. split.
        -- intros (g & info & Hin & Hg). exists g, info. split; [ now right | exact Hg ].
        -- intros (g & info & [[= <- <-]|Hin] & Hg); [ congruence | eauto ].
      * rewrite IH2. split.
        -- intros H g info [[= <- <-]|Hin]; [ exact Hf | eauto ].
        -- intros H g info Hin. apply (H g info). now right.
    + assert (inherited f = true /\ e = TypeError) as [Hf ->].
      { unfold merge_field in E. destruct (assoc_get f merged); [ discriminate E | ].
        destruct (inherited f); [ | discriminate E ]. injection E as <-. auto. }
      split; split.
      * intros _. exists f, i. split; [ now left | exact Hf ].
      * reflexivity.
      * intros [x Hx]. discriminate Hx.
      * intros H. specialize (H f i (or_introl eq_refl)). congruence.
Qed.

(** X22.  [mergeSchemas] raises a TypeError exactly when some schema has
    a field named like a member of [Object.prototype] ("constructor",
    "toString", "valueOf", ...), and returns otherwise. *)
Theorem mergeSchemas_raises_iff (schemas : list schema) :
  (mergeSchemas schemas = Throw TypeError
   <-> exists f info, In (f, info) (concat schemas) /\ inherited f = true)
  /\ (returns (mergeSchemas schemas)
      <-> forall f info, In (f, info) (concat schemas) -> inherited f = false).
Proof.
  unfold mergeSchemas. rewrite merge_schemas_concat.
  apply merge_schema_raises_iff. reflexivity.
Qed.

Lemma mergeSchemas_raises_iff_witness :
  mergeSchemas
    [[("constructor", {| info_type := "string"; info_nullable := false;
                        info_sample := "x"; info_properties := None |})]]
  = Throw TypeError.
Proof.
  apply (proj1 (mergeSchemas_raises_iff _)).
  eexists _, _. split; [ left; reflexivity | reflexivity ].
Defined.

Lemma assoc_get_not_in {A : Type} (k : string) (m : list (string * A)) :
  ~ In k (map fst m) -> assoc_get k m = None.
Proof.
  induction m as [|[k' a] m IH]; cbn; intros H; [ reflexivity | ].
  destruct (String.eqb k k') eqn:E.
  - apply String.eqb_eq in E. subst. tauto.
  - apply IH. tauto.
Qed.

Lemma spread_merge_get {A : Type} (k : string) (a b : list (string * A)) :
  NoDup (map fst b) ->
  assoc_get k (spread_merge a b)
  = match assoc_get k b with
    | Some x => Some x
    | None => assoc_get k a
    end.
Proof.
  unfold spread_merge. revert a. induction b as [|[k0 x0] b IH]; intros a Hnd;
    cbn [fold_left assoc_get fst snd map] in *.
  - reflexivity.
  - inversion Hnd as [|? ? Hnotin Hnd']; subst. rewrite (IH _ Hnd').
    destruct (String.eqb k k0) eqn:E.
    + apply String.eqb_eq in E. subst k0.
      rewrite (assoc_get_not_in k b Hnotin). apply assoc_get_set_eq.
    + apply String.eqb_neq in E. rewrite assoc_get_set_neq by congruence. reflexivity.
Qed.

Lemma fold_merged_update_nested (rest : list field_info) (m : merged_field) (p : string) :
  distinct_nested rest ->
  assoc_get p (merged_properties (fold_left merged_update rest m))
  = nested_latest p rest (assoc_get p (merged_properties m)).
Proof.
  intros H. revert m. induction H as [|i rest Hi _ IH]; intros m;
    cbn [fold_left nested_latest]; [ reflexivity | ].
  rewrite IH. f_equal. unfold merged_update. cbn [merged_properties].
  destruct (info_properties i) as [ps|]; [ | reflexivity ].
  now apply spread_merge_get.
Qed.

(** X23.  Nested properties are overwritten, not merged: for a field of
    the result, the record of a nested property is the one from the latest
    schema whose field has that nested property, and a nested property
    once seen is never lost. *)
Theorem mergeSchemas_nested_latest (schemas : list schema)
  (merged : list (string * merged_field)) (f : string) (m : merged_field) (p : string) :
  mergeSchemas schemas = Ok merged ->
  assoc_get f merged = Some m ->
  distinct_nested (sightings f schemas) ->
  assoc_get p (merged_properties m) = nested_latest p (sightings f schemas) None.
Proof.
  intros H Hm Hd. rewrite (mergeSchemas_sightings _ _ f H) in Hm.
  destruct (sightings f schemas) as [|first rest]; [ discriminate Hm | ].
  cbn [fold_left] in Hm. unfold merge_sighting at 2 in Hm.
  rewrite fold_merge_sighting in Hm. injection Hm as <-.
  inversion Hd as [|? ? _ Hrest]; subst.
  rewrite (fold_merged_update_nested rest _ p Hrest).
  cbn [nested_latest merged_init merged_properties].
  f_equal. destruct (info_properties first) as [ps|]; [ | reflexivity ].
  destruct (assoc_get p ps); reflexivity.
Qed.

Lemma mergeSchemas_nested_latest_witness :
  exists merged m,
    mergeSchemas sample_nested_schemas = Ok merged
    /\ assoc_get "location" merged = Some m
    /\ assoc_get "city" (merged_properties m)
       = nested_latest "city" (sightings "location" sample_nested_schemas) None.
Proof.
  eexists _, _. split; [ reflexivity | ]. split; [ reflexivity | ].
  eapply mergeSchemas_nested_latest; [ reflexivity | reflexivity | ].
  unfold distinct_nested. cbn.
  repeat constructor; simpl; intuition discriminate.
Defined.

(** ** The schema extraction script: [analyzeDocument] *)

Lemma append_brackets_not_null (t : string) : (t ++ "[]")%string <> "null".
Proof.
  destruct t as [|a [|b [|c [|d [|e t]]]]]; cbn; discriminate.
Qed.

(** [getType] reports "null" for [null] and for nothing else. *)
Lemma getType_null (v : js_value) (t : string) :
  getType v = Ok t -> strict_eq v LNull = String.eqb t "null".
Proof.
  destruct v; try (intros [= <-]; reflexivity).
  - destruct b; intros [= <-]; reflexivity.
  - destruct n; intros [= <-]; reflexivity.
  - destruct z; intros [= <-]; reflexivity.
  - destruct s; intros [= <-]; reflexivity.
  - rewrite getType_array_call. destruct (Nat.eqb (List.length items) 0);
      [ intros [= <-]; reflexivity | ].
    unfold call_method, call_found.
    destruct (lookup "map" props) as [f|];
      [ destruct (js_type_eqb (typeof f) TFunction); discriminate | ].
    destruct (map_getType items) as [ts|]; [ | discriminate ]. cbn [bind].
    destruct (Nat.eqb _ 1); intros [= <-]; [ | reflexivity ].
    cbn [strict_eq]. symmetry. apply String.eqb_neq, append_brackets_not_null.
  - cbn. destruct (strict_eq _ LUndefined); intros [= <-]; reflexivity.
Qed.

Lemma assign_get {A : Type} (k k' : string) (a : A) (m : list (string * A)) :
  assoc_get k' (assign k a m)
  = if String.eqb k' k && negb (String.eqb k "__proto__") then Some a else assoc_get k' m.
Proof.
  unfold assign. destruct (String.eqb k "__proto__") eqn:P; cbn [negb].
  - now rewrite andb_false_r.
  - rewrite andb_true_r. destruct (String.eqb k' k) eqn:E.
    + apply String.eqb_eq in E. subst. apply assoc_get_set_eq.
    + apply String.eqb_neq in E. apply assoc_get_set_neq. congruence.
Qed.

Lemma assoc_set_Forall {A : Type} (P : string * A -> Prop) (k : string) (a : A)
  (m : list (string * A)) :
  P (k, a) -> Forall P m -> Forall P (assoc_set k a m).
Proof.
  intros Ha H. induction H as [|[k' a'] m Hx Hm IH]; cbn.
  - constructor; [ exact Ha | constructor ].
  - destruct (String.eqb k k'); constructor; assumption.
Qed.

Section AnalyzeDocumentProperties.

Variable JSON_stringify : js_value -> result string.
Variable String_of : js_value -> result string.

(** One step of the loop over the fields, when it completes. *)
Lemma analyze_entries_step (key : string) (value : js_value)
  (rest : list (string * js_value)) (acc result : schema) :
  analyze_entries JSON_stringify String_of ((key, value) :: rest) acc = Ok result ->
  exists info,
    describes value info
    /\ analyze_entries JSON_stringify String_of rest (assign key info acc) = Ok result.
Proof.
  cbn [analyze_entries]. intros H.
  destruct (getType value) as [type|] eqn:Et; [ | discriminate H ]. cbn [bind] in H.
  destruct (sample_of JSON_stringify String_of type value) as [sample|];
    [ | discriminate H ].
  cbn [bind] in H.
  pose proof (getType_null value type Et) as Hnull.
  destruct (String.eqb type "object" && negb (strict_eq value LNull)) eqn:Eobj.
  - destruct (analyze_properties (own_entries value) []) as [ps|]; [ | discriminate H ].
    cbn [bind ret] in H. eexists. split; [ | exact H ].
    apply andb_true_iff in Eobj as [Eo _].
    unfold describes. cbn. rewrite Eo. auto.
  - cbn [bind ret] in H. eexists. split; [ | exact H ].
    unfold describes. cbn. repeat split; [ exact Et | ].
    destruct (String.eqb type "object") eqn:Eo; [ | reflexivity ].
    cbn [andb] in Eobj. apply negb_false_iff in Eobj. rewrite Hnull in Eobj.
    apply String.eqb_eq in Eo, Eobj. congruence.
Qed.

Lemma analyze_entries_get (entries : list (string * js_value)) (acc result : schema)
  (k : string) :
  analyze_entries JSON_stringify String_of entries acc = Ok result ->
  NoDup (map fst entries) ->
  (assoc_get k result = assoc_get k acc /\ (lookup k entries = None \/ k = "__proto__"))
  \/ (k <> "__proto__"
      /\ exists v info, lookup k entries = Some v /\ assoc_get k result = Some info
                        /\ describes v info).
Proof.
  revert acc. induction entries as [|[key value] entries IH]; intros acc H Hnd.
  - injection H as <-. left. auto.
  - apply analyze_entries_step in H as (info & Hinfo & H).
    inversion Hnd as [|? ? Hnotin Hnd']; subst.
    specialize (IH _ H Hnd'). cbn [lookup]. rewrite assign_get in IH.
    destruct (String.eqb k key) eqn:E.
    + apply String.eqb_eq in E. subst key.
      assert (lookup k entries = None) as Hnone.
      { clear - Hnotin. induction entries as [|[k' x] entries IH]; cbn in *;
          [ reflexivity | ].
        destruct (String.eqb k k') eqn:E;
          [ apply String.eqb_eq in E; subst; tauto | apply IH; tauto ]. }
      destruct IH as [[IH _]|(_ & v' & info' & Hv' & _)]; [ | congruence ].
      cbn [andb] in IH. destruct (String.eqb k "__proto__") eqn:P; cbn [negb] in IH.
      * left. split; [ exact IH | right; now apply String.eqb_eq ].
      * right. split; [ now apply String.eqb_neq | ]. now exists value, info.
    + cbn [andb] in IH. exact IH.
Qed.

(** X24.  When [analyzeDocument] returns, the schema has a record for each
    field of the document (other than ["__proto__"]) and for nothing else;
    the record's type is what [getType] reports for the field's value, it
    is nullable exactly when the value is [null], and it has nested
    properties exactly when the type is "object". *)
Theorem analyzeDocument_field (data : list (string * js_value)) (result : schema)
  (k : string) :
  NoDup (map fst data) ->
  analyzeDocument JSON_stringify String_of data = Ok result ->
  match assoc_get k result with
  | Some info => k <> "__proto__" /\ exists v, lookup k data = Some v /\ describes v info
  | None => lookup k data = None \/ k = "__proto__"
  end.
Proof.
  intros Hnd H.
  destruct (analyze_entries_get data [] result k H Hnd)
    as [[-> Hk]|(Hk & v & info & Hv & -> & Hinfo)].
  - exact Hk.
  - split; [ exact Hk | now exists v ].
Qed.

Lemma analyze_entries_nullable (entries : list (string * js_value)) (acc result : schema) :
  analyze_entries JSON_stringify String_of entries acc = Ok result ->
  Forall (fun kv => info_nullable (snd kv) = String.eqb (info_type (snd kv)) "null") acc ->
  Forall (fun kv => info_nullable (snd kv) = String.eqb (info_type (snd kv)) "null") result.
Proof.
  revert acc. induction entries as [|[key value] entries IH]; intros acc H Hacc.
  - now injection H as <-.
  - apply analyze_entries_step in H as (info & (Ht & Hn & _) & H).
    apply (IH _ H). unfold assign. destruct (String.eqb key "__proto__"); [ exact Hacc | ].
    apply assoc_set_Forall; [ | exact Hacc ].
    cbn [snd]. rewrite Hn. now apply getType_null.
Qed.

(** X25.  In the merge of schemas that [analyzeDocument] produced, a
    field is nullable exactly when "null" is among its types. *)
Theorem merged_nullable_iff_null_type (docs : list (list (string * js_value)))
  (schemas : list schema) (merged : list (string * merged_field)) (f : string)
  (m : merged_field) :
  Forall2 (fun data s => analyzeDocument JSON_stringify String_of data = Ok s) docs schemas ->
  mergeSchemas schemas = Ok merged ->
  assoc_get f merged = Some m ->
  merged_nullable m = true <-> In "null" (merged_types m).
Proof.
  intros Hdocs H Hm.
  pose proof (mergeSchemas_field_summary schemas merged f H) as Hf.
  rewrite Hm in Hf. destruct Hf as (_ & -> & -> & _).
  unfold unique. rewrite fold_set_add_In, in_map_iff, existsb_exists. cbn [In].
  assert (Forall (fun info => info_nullable info = String.eqb (info_type info) "null")
            (sightings f schemas)) as Hwf.
  { unfold sightings. apply Forall_forall. intros info Hin.
    apply in_map_iff in Hin as ([k i] & <- & Hin). apply filter_In in Hin as [Hin _].
    apply in_concat in Hin as (s & Hs & Hin).
    assert (Forall (fun kv => info_nullable (snd kv) = String.eqb (info_type (snd kv)) "null")
              s) as Hs'.
    { clear - Hdocs Hs. induction Hdocs as [|d s' docs schemas Hd _ IH]; [ destruct Hs | ].
      destruct Hs as [<-|Hs]; [ | auto ].
      eapply analyze_entries_nullable; [ exact Hd | constructor ]. }
    rewrite Forall_forall in Hs'. apply (Hs' _ Hin). }
  rewrite Forall_forall in Hwf. split.
  - intros (info & Hin & Hn). right. exists info. split; [ | exact Hin ].
    rewrite (Hwf _ Hin) in Hn. now apply String.eqb_eq in Hn.
  - intros [[]|(info & Ht & Hin)]. exists info. split; [ exact Hin | ].
    rewrite (Hwf _ Hin), Ht. reflexivity.
Qed.

End AnalyzeDocumentProperties.

Lemma analyzeDocument_field_witness :
  exists result,
    analyzeDocument (fun _ => Ok "{}") (fun _ => Ok "text") (nth 0 sample_documents [])
    = Ok result
    /\ match assoc_get "company_id" result with
       | Some info =>
           "company_id" <> "__proto__"
           /\ exists v, lookup "company_id" (nth 0 sample_documents []) = Some v
                        /\ describes v info
       | None =>
           lookup "company_id" (nth 0 sample_documents []) = None
           \/ "company_id" = "__proto__"
       end.
Proof.
  eexists. split; [ reflexivity | ].
  apply (analyzeDocument_field (fun _ => Ok "{}") (fun _ => Ok "text")
           (nth 0 sample_documents [])).
  - simpl. repeat constructor; simpl; intuition discriminate.
  - reflexivity.
Defined.

Lemma merged_nullable_iff_null_type_witness :
  exists schemas merged m,
    Forall2 (fun data s => analyzeDocument (fun _ => Ok "{}") (fun _ => Ok "text") data = Ok s)
      sample_documents schemas
    /\ mergeSchemas schemas = Ok merged
    /\ assoc_get "company_id" merged = Some m
    /\ (merged_nullable m = true <-> In "null" (merged_types m)).
Proof.
  assert (exists schemas,
             Forall2 (fun data s =>
                        analyzeDocument (fun _ => Ok "{}") (fun _ => Ok "text") data = Ok s)
               sample_documents schemas
             /\ exists merged, mergeSchemas schemas = Ok merged
                               /\ exists m, assoc_get "company_id" merged = Some m)
    as (schemas & Hdocs & merged & Hmerged & m & Hm).
  { eexists. split.
    - apply Forall2_cons; [ reflexivity | ]. apply Forall2_cons; [ reflexivity | ].
      apply Forall2_nil.
    - eexists. split; [ reflexivity | ]. eexists. reflexivity. }
  exists schemas, merged, m. repeat split; try assumption.
  - apply (merged_nullable_iff_null_type _ _ _ _ _ _ _ Hdocs Hmerged Hm).
  - apply (merged_nullable_iff_null_type _ _ _ _ _ _ _ Hdocs Hmerged Hm).
Defined.
